(** * aicode: the MCP client of [src/utils/mcp.ts]

    A shallow embedding of the [MCPManager] class: the JSON values that
    travel over a provider's standard output, the schema translator
    ([convertSchemaToZod], [convertPropertyToZod]), the request
    correlator ([sendRequest], [handleMessage]), the registry
    ([startServer], [stopServer], [getActiveServers]) and the tool
    catalog ([getAllTools] and the handler of each entry).

    Conventions.
    - A JavaScript value that comes from [JSON.parse] is a [json]; a
      possibly-[undefined] value is an [option json] with [None] for
      [undefined].
    - Numbers are exact rationals: the rounding of IEEE doubles is not
      modelled.
    - A [JObj] lists the own properties of the object in enumeration
      order, each key once; a property is read with the first match.
    - A function that may throw returns a [result]. *)

From Stdlib Require Import ZArith QArith List String Ascii Bool Lia DecimalString.
From stdpp Require Import base option list gmap strings.

Local Open Scope string_scope.
Local Open Scope list_scope.
Set Warnings "-register-all".

(** ** JSON values *)

Inductive json : Type :=
| JNull
| JBool (b : bool)
| JNum (q : Q)
| JStr (s : string)
| JArr (items : list json)
| JObj (fields : list (string * json)).

(** What a [throw] carries.  [TypeError] is the engine's own error (a
    property read on [null] or [undefined], a call of something that is
    not a function, an iteration over something not iterable);
    [PlainError m] is [new Error(m)]: [handleMessage] builds it with [m]
    the value of [message.error.message], [startServer] with a fixed
    text. *)
Inductive js_error : Type :=
| TypeError
| PlainError (message : option json).

Inductive result (A : Type) : Type :=
| Ok (a : A)
| Throw (e : js_error).
Arguments Ok {A} a.
Arguments Throw {A} e.

#[global] Instance result_bind : MBind result := fun A B k r =>
  match r with
  | Ok a => k a
  | Throw e => Throw e
  end.

Definition is_ok {A} (r : result A) : bool :=
  match r with Ok _ => true | Throw _ => false end.

(** *** The engine's primitive operations on values *)

(** [Number.isInteger] on an exact rational. *)
Definition is_integer (q : Q) : bool :=
  Pos.eqb (Qden (Qred q)) 1.

Definition js_truthy (v : option json) : bool :=
  match v with
  | None => false
  | Some JNull => false
  | Some (JBool b) => b
  | Some (JNum q) => negb (Qeq_bool q 0)
  | Some (JStr s) => negb (String.eqb s "")
  | Some (JArr _) => true
  | Some (JObj _) => true
  end.

Definition lookup_field {A} (k : string) (fs : list (string * A)) : option A :=
  match find (fun p => String.eqb (fst p) k) fs with
  | Some p => Some (snd p)
  | None => None
  end.

(** [v.k] for one of the property names the source reads ([type],
    [properties], [required], [items], [minimum], [tools], [name],
    [description], [inputSchema], [content], [text], [error], [message],
    [result], [method], [id]): none of them lives on a prototype, so a
    primitive or an array answers [undefined]. *)
Definition get_prop (v : option json) (k : string) : result (option json) :=
  match v with
  | None => Throw TypeError
  | Some JNull => Throw TypeError
  | Some (JObj fs) => Ok (lookup_field k fs)
  | Some _ => Ok None
  end.

(** [k in v]. *)
Definition has_prop (k : string) (v : json) : result bool :=
  match v with
  | JObj fs => Ok (bool_decide (is_Some (lookup_field k fs)))
  | JArr _ => Ok false
  | _ => Throw TypeError
  end.

(** [Array.prototype.includes] with a string argument (SameValueZero:
    only an equal string matches). *)
Definition array_includes (l : list json) (key : string) : bool :=
  existsb (fun v => match v with JStr s => String.eqb s key | _ => false end) l.

(** [String.prototype.includes]. *)
Fixpoint string_includes (hay needle : string) : bool :=
  String.prefix needle hay ||
  match hay with
  | EmptyString => false
  | String _ rest => string_includes rest needle
  end.

(** The decimal spelling of an array index. *)
Definition index_key (i : nat) : string :=
  NilZero.string_of_uint (Nat.to_uint i).

Definition indexed {A} (l : list A) : list (string * A) :=
  imap (fun i x => (index_key i, x)) l.

Fixpoint string_chars (s : string) : list string :=
  match s with
  | EmptyString => []
  | String c rest => String c EmptyString :: string_chars rest
  end.

(** [s.split(" ")]: never empty. *)
Fixpoint split_spaces (s : string) : list string :=
  match s with
  | EmptyString => [EmptyString]
  | String c rest =>
      if Ascii.eqb c " "%char then EmptyString :: split_spaces rest
      else
        match split_spaces rest with
        | word :: words => String c word :: words
        | [] => [String c EmptyString]
        end
  end.

(** [Object.entries(v)] for a [v] that is neither [null] nor
    [undefined]. *)
Definition Object_entries (v : json) : list (string * json) :=
  match v with
  | JObj fs => fs
  | JArr l => indexed l
  | JStr s => indexed (JStr <$> string_chars s)
  | _ => []
  end.

(** ** The pieces of the runtime the source calls and does not define *)

(** What [spawn(cmd, args, {stdio: ["pipe", "pipe", "pipe"]})] does at
    once: it hands back a child process with its standard output, or
    one without, or it throws (on a program name it refuses).  A
    program that cannot be run is reported later, by the [error] event
    of the child. *)
Inductive spawn_result : Type :=
| Spawned
| NoStdout
| SpawnThrows (e : js_error).

Class Runtime : Type := {
  spawn : string -> list string -> spawn_result;
  (** [JSON.parse]: [None] when it throws a [SyntaxError]. *)
  JSON_parse : string -> option json;
  (** [JSON.stringify] of a value that came from [JSON.parse]. *)
  JSON_stringify : json -> string;
  (** [Number.prototype.toString]. *)
  Number_toString : Q -> string;
  (** zod's [min] check of an integer against a bound that is not a
      number (the source casts [schema.minimum as number]); its outcome
      rests on the engine's coercion of the bound. *)
  coerced_min_ok : json -> Q -> bool
}.

(** ** The validators built with zod

    The term records the builder calls; [accepts] below is zod's
    [safeParse(...).success] for them. *)

Inductive zod : Type :=
| ZAny                                  (* z.any() *)
| ZString                               (* z.string() *)
| ZNumber                               (* z.number() *)
| ZInt (minimum : option json)          (* z.number().int(), then .min(m) *)
| ZBoolean                              (* z.boolean() *)
| ZArray (element : zod)                (* z.array(e) *)
| ZObject (shape : list (string * zod)) (* z.object(shape) *)
| ZOptional (inner : zod).              (* v.optional() *)

(** [shape[key] = v] on the plain object [shape]. *)
Fixpoint shape_set (key : string) (v : zod) (shape : list (string * zod))
  : list (string * zod) :=
  match shape with
  | [] => [(key, v)]
  | (k, w) :: rest =>
      if String.eqb k key then (k, v) :: rest else (k, w) :: shape_set key v rest
  end.

Section Validators.
Context `{Runtime}.

Fixpoint accepts (v : zod) (input : option json) : bool :=
  match v with
  | ZAny => true
  | ZString => match input with Some (JStr _) => true | _ => false end
  | ZNumber => match input with Some (JNum _) => true | _ => false end
  | ZInt minimum =>
      match input with
      | Some (JNum q) =>
          is_integer q &&
          match minimum with
          | None => true
          | Some (JNum m) => Qle_bool m q
          | Some bound => coerced_min_ok bound q
          end
      | _ => false
      end
  | ZBoolean => match input with Some (JBool _) => true | _ => false end
  | ZArray element =>
      match input with
      | Some (JArr items) => forallb (fun x => accepts element (Some x)) items
      | _ => false
      end
  | ZObject shape =>
      match input with
      | Some (JObj fields) =>
          forallb (fun kv => accepts (snd kv) (lookup_field (fst kv) fields)) shape
      | _ => false
      end
  | ZOptional inner =>
      match input with
      | None => true
      | Some _ => accepts inner input
      end
  end.

End Validators.

(** ** The schema translator *)

(** [schema.required?.includes(key)]. *)
Definition required_includes (required : option json) (key : string) : result bool :=
  match required with
  | None => Ok false
  | Some JNull => Ok false
  | Some (JArr l) => Ok (array_includes l key)
  | Some (JStr s) => Ok (string_includes s key)
  | Some _ => Throw TypeError
  end.

(** The loop of [convertSchemaToZod] over [Object.entries(schema.properties)],
    with [convert] for [this.convertPropertyToZod]. *)
Fixpoint convert_entries (convert : json -> result zod) (required : option json)
    (entries : list (string * json)) (shape : list (string * zod))
  : result (list (string * zod)) :=
  match entries with
  | [] => Ok shape
  | (key, propSchema) :: rest =>
      v ← convert propSchema;
      req ← required_includes required key;
      convert_entries convert required rest
        (shape_set key (if (req : bool) then v else ZOptional v) shape)
  end.

(** The same loop over the elements of an array, whose keys are the
    indices from [i] on. *)
Fixpoint convert_items (convert : json -> result zod) (required : option json)
    (i : nat) (items : list json) (shape : list (string * zod))
  : result (list (string * zod)) :=
  match items with
  | [] => Ok shape
  | propSchema :: rest =>
      v ← convert propSchema;
      req ← required_includes required (index_key i);
      convert_items convert required (S i) rest
        (shape_set (index_key i) (if (req : bool) then v else ZOptional v) shape)
  end.

(** [v === s] for a string literal [s]. *)
Definition is_string (v : option json) (s : string) : bool :=
  match v with
  | Some (JStr t) => String.eqb t s
  | _ => false
  end.

(** [f] applied to the field [k], when there is one. *)
Fixpoint field_with {A B} (f : A -> B) (k : string) (fs : list (string * A)) : option B :=
  match fs with
  | [] => None
  | (k', v) :: rest => if String.eqb k' k then Some (f v) else field_with f k rest
  end.

(** [if (schema.properties) { for (... of Object.entries(schema.properties)) ... }]
    by the kind of value [schema.properties] is.  The entries of a
    string are its characters, which [convertPropertyToZod] sends to
    [z.any()] ([convertPropertyToZod_primitive] below). *)
Definition properties_shape (convert : json -> result zod) (required : option json)
    (properties : json) : result (list (string * zod)) :=
  match properties with
  | JObj ps => convert_entries convert required ps []
  | JArr l => convert_items convert required 0 l []
  | JStr s =>
      convert_entries (fun _ => Ok ZAny) required (indexed (JStr <$> string_chars s)) []
  | _ => Ok []
  end.

Definition object_shape (convert : json -> result zod) (fs : list (string * json))
  : result (list (string * zod)) :=
  match field_with (properties_shape convert (lookup_field "required" fs)) "properties" fs with
  | Some r => r
  | None => Ok []
  end.

(** [convertPropertyToZod], by recursion on the schema.  The recursive
    calls sit under [field_with] so that they are made on parts of the
    schema; [convertPropertyToZod_eq] below restates the function the way
    the source writes it. *)
Fixpoint convertPropertyToZod (schema : json) : result zod :=
  match schema with
  | JNull => Throw TypeError
  | JObj fs =>
      let type := lookup_field "type" fs in
      if is_string type "string" then Ok ZString
      else if is_string type "number" then Ok ZNumber
      else if is_string type "integer" then Ok (ZInt (lookup_field "minimum" fs))
      else if is_string type "boolean" then Ok ZBoolean
      else if is_string type "array" then
        match
          field_with
            (fun items =>
               if js_truthy (Some items)
               then (v ← convertPropertyToZod items; Ok (ZArray v))
               else Ok (ZArray ZAny))
            "items" fs
        with
        | Some r => r
        | None => Ok (ZArray ZAny)
        end
      else if is_string type "object" then
        shape ← object_shape convertPropertyToZod fs; Ok (ZObject shape)
      else Ok ZAny
  | _ => Ok ZAny
  end.

(** [convertSchemaToZod], as the source writes it. *)
Definition convertSchemaToZod (schema : option json) : result zod :=
  if negb (js_truthy schema) then Ok (ZObject [])
  else
    type ← get_prop schema "type";
    if negb (js_truthy type) then Ok (ZObject [])
    else if is_string type "object" then
      properties ← get_prop schema "properties";
      required ← get_prop schema "required";
      shape ← match properties with
              | Some p =>
                  if js_truthy properties
                  then convert_entries convertPropertyToZod required (Object_entries p) []
                  else Ok []
              | None => Ok []
              end;
      Ok (ZObject shape)
    else Ok ZAny.

(** The body of [convertPropertyToZod], as the source writes it. *)
Definition convertPropertyToZod_body (schema : json) : result zod :=
  type ← get_prop (Some schema) "type";
  if is_string type "string" then Ok ZString
  else if is_string type "number" then Ok ZNumber
  else if is_string type "integer" then
    minimum ← get_prop (Some schema) "minimum"; Ok (ZInt minimum)
  else if is_string type "boolean" then Ok ZBoolean
  else if is_string type "array" then
    items ← get_prop (Some schema) "items";
    match items with
    | Some i =>
        if js_truthy items
        then (v ← convertPropertyToZod i; Ok (ZArray v))
        else Ok (ZArray ZAny)
    | None => Ok (ZArray ZAny)
    end
  else if is_string type "object" then convertSchemaToZod (Some schema)
  else Ok ZAny.

(** ** String conversions of the engine *)

Section Strings.
Context `{Runtime}.

(** [String(v)] for a value that came from [JSON.parse]. *)
Fixpoint js_toString (v : json) : string :=
  match v with
  | JNull => "null"
  | JBool true => "true"
  | JBool false => "false"
  | JNum q => Number_toString q
  | JStr s => s
  | JArr l =>
      String.concat ","
        (map (fun x => match x with JNull => "" | _ => js_toString x end) l)
  | JObj _ => "[object Object]"
  end.

(** A value spliced into a template literal. *)
Definition template (v : option json) : string :=
  match v with
  | None => "undefined"
  | Some x => js_toString x
  end.

(** [Array.prototype.join]: [undefined] and [null] elements give the
    empty string. *)
Definition join_item (v : option json) : string :=
  match v with
  | None => ""
  | Some JNull => ""
  | Some x => js_toString x
  end.

Definition Array_join (sep : string) (l : list (option json)) : string :=
  String.concat sep (map join_item l).

End Strings.

(** ** The request correlator *)

(** A request as written to the provider's standard input by
    [sendRequest]. *)
Record request : Type := {
  req_id : Z;
  req_method : string;
  req_params : option json
}.

(** How a pending request is settled: [pending.resolve(message.result)]
    or [pending.reject(new Error(message.error.message))]. *)
Inductive reply : Type :=
| Resolve (value : option json)
| Reject (e : js_error).

(** One [MCPServer] object.  The caller of [sendRequest] awaits the
    promise it returns, so the [{resolve, reject}] pair stored under a
    request id stands for the suspended caller: [K] is the type of
    these.  [written] is what has gone to [process.stdin], oldest first.
    [capabilities] is never read or updated and [readline] only carries
    the line handler, so neither has a field. *)
Record MCPServer (K : Type) : Type := {
  tools : json;
  nextId : Z;
  pendingRequests : gmap Z K;
  command : string;
  written : list request
}.
Arguments tools {K} _.
Arguments nextId {K} _.
Arguments pendingRequests {K} _.
Arguments command {K} _.
Arguments written {K} _.

(** The object literal built in [startServer]. *)
Definition new_server {K} (cmd : string) : MCPServer K :=
  {| tools := JArr [];
     nextId := 1;
     pendingRequests := ∅;
     command := cmd;
     written := [] |}.

(** The settlement of one pending request: the id it was stored under,
    who awaits it, and the outcome. *)
Record settlement (K : Type) : Type := {
  s_id : Z;
  s_waiter : K;
  s_reply : reply
}.
Arguments s_id {K} _.
Arguments s_waiter {K} _.
Arguments s_reply {K} _.

(** The key under which the [Map] looks a value up: the request ids
    stored by [sendRequest] are integers, so only an equal number
    matches. *)
Definition number_key (v : option json) : option Z :=
  match v with
  | Some (JNum q) => if is_integer q then Some (Qnum (Qred q)) else None
  | _ => None
  end.

Section Correlator.
Context {K : Type}.

Definition sendRequest (server : MCPServer K) (method : string)
    (params : option json) (waiter : K) : MCPServer K :=
  let id := nextId server in
  {| tools := tools server;
     nextId := id + 1;
     pendingRequests := <[id := waiter]> (pendingRequests server);
     command := command server;
     written := written server ++
       [{| req_id := id; req_method := method; req_params := params |}] |}.

(** The outcome a response carries. *)
Definition reply_of (message : json) : result reply :=
  error ← get_prop (Some message) "error";
  if js_truthy error then
    m ← get_prop error "message"; Ok (Reject (PlainError m))
  else
    r ← get_prop (Some message) "result"; Ok (Resolve r).

Definition handleMessage (server : MCPServer K) (message : json)
  : result (MCPServer K * option (settlement K)) :=
  has_id ← has_prop "id" message;
  if (has_id : bool) then
    id ← get_prop (Some message) "id";
    match number_key id with
    | Some key =>
        match pendingRequests server !! key with
        | Some pending =>
            r ← reply_of message;
            Ok ({| tools := tools server;
                   nextId := nextId server;
                   pendingRequests := delete key (pendingRequests server);
                   command := command server;
                   written := written server |},
                Some {| s_id := key; s_waiter := pending; s_reply := r |})
        | None => Ok (server, None)
        end
    | None => Ok (server, None)
    end
  else
    (* a notification, or neither: logged at most *)
    Ok (server, None).

(** The listener of [readline.on("line", ...)]: both [JSON.parse] and
    [handleMessage] run inside the [try]. *)
Definition onLine `{Runtime} (server : MCPServer K) (line : string)
  : MCPServer K * option (settlement K) :=
  match JSON_parse line with
  | None => (server, None)
  | Some message =>
      match handleMessage server message with
      | Ok r => r
      | Throw _ => (server, None)
      end
  end.

(** What happens on one session: a caller sends a request, or the
    provider's answer arrives already parsed. *)
Inductive session_event : Type :=
| Send (method : string) (params : option json) (waiter : K)
| Recv (message : json).

Definition session_step (server : MCPServer K) (e : session_event)
  : MCPServer K * list (settlement K) :=
  match e with
  | Send method params waiter => (sendRequest server method params waiter, [])
  | Recv message =>
      match handleMessage server message with
      | Ok (server', Some s) => (server', [s])
      | Ok (server', None) => (server', [])
      | Throw _ => (server, [])
      end
  end.

Fixpoint session_run (server : MCPServer K) (trace : list session_event)
  : MCPServer K * list (settlement K) :=
  match trace with
  | [] => (server, [])
  | e :: rest =>
      let '(server', out) := session_step server e in
      let '(server'', out') := session_run server' rest in
      (server'', out ++ out')
  end.

(** The request id a message answers, if it is a response with a
    numeric id. *)
Definition response_id (message : json) : option Z :=
  match message with
  | JObj fs => number_key (lookup_field "id" fs)
  | _ => None
  end.


End Correlator.
Arguments session_event K : clear implicits.

(** ** The manager *)

(** What an [async] method of the manager, or a tool handler, ends
    with. *)
Inductive retval : Type :=
| RVoid
| RString (s : string).

Inductive settled : Type :=
| Fulfilled (v : retval)
| Rejected (e : js_error).

(** The suspended callers of [sendRequest].  [call] names the promise
    the suspended [async] function returned, [server] the [MCPServer]
    object it holds. *)
Inductive cont : Type :=
| AwaitInitialize (call server : nat)  (* startServer, at the initialize request *)
| AwaitToolsList (call server : nat)   (* startServer, inside listTools *)
| AwaitToolsCall (call : nat).         (* a tool handler, at tools/call *)

(** The state of one [MCPManager].
    - [servers] is the [Map] of the class, in insertion order; its
      values are references into [heap].
    - [heap] holds every [MCPServer] object created so far, in creation
      order; an index into [heap] also names the child process the
      object holds.  Listeners and handlers keep their object alive
      after it has left [servers].
    - [spawned] lists the calls of [spawn] so far, each with its
      program and arguments.
    - [killed] lists the sessions on whose process [kill()] was called.
    - [calls] holds the promises returned so far by the [async] methods
      and the tool handlers, [None] while pending. *)
Record Manager : Type := {
  servers : list (string * nat);
  heap : list (MCPServer cont);
  spawned : list (string * list string);
  killed : list nat;
  calls : list (option settled)
}.

Definition initial : Manager :=
  {| servers := []; heap := []; spawned := []; killed := []; calls := [] |}.

(** [Map.prototype.get], [set] and [delete] on [servers]. *)
Definition registry_get (cmd : string) (reg : list (string * nat)) : option nat :=
  lookup_field cmd reg.

Fixpoint registry_set (cmd : string) (addr : nat) (reg : list (string * nat))
  : list (string * nat) :=
  match reg with
  | [] => [(cmd, addr)]
  | (c, a) :: rest =>
      if String.eqb c cmd then (c, addr) :: rest
      else (c, a) :: registry_set cmd addr rest
  end.

Definition registry_delete (cmd : string) (reg : list (string * nat))
  : list (string * nat) :=
  List.filter (fun p => negb (String.eqb (fst p) cmd)) reg.

Definition getActiveServers (m : Manager) : list string :=
  map fst (servers m).

Definition with_calls (cs : list (option settled)) (m : Manager) : Manager :=
  {| servers := servers m; heap := heap m; spawned := spawned m;
     killed := killed m; calls := cs |}.

Definition with_heap (h : list (MCPServer cont)) (m : Manager) : Manager :=
  {| servers := servers m; heap := h; spawned := spawned m;
     killed := killed m; calls := calls m |}.

(** A new promise, returned by a call; and its settlement later on. *)
Definition returned (p : option settled) (m : Manager) : Manager :=
  with_calls (calls m ++ [p]) m.

Definition settle (call : nat) (s : settled) (m : Manager) : Manager :=
  with_calls (<[call := Some s]> (calls m)) m.

Definition initialize_params : json :=
  JObj [("protocolVersion", JStr "2024-11-05");
        ("capabilities", JObj []);
        ("clientInfo", JObj [("name", JStr "aicode"); ("version", JStr "1.0.0")])].

(** The text of the [Error] thrown when the child has no standard
    output. *)
Definition stdout_is_null : js_error :=
  PlainError (Some (JStr "Server process stdout is null")).

(** [const [cmd, ...args] = command.split(" ")]. *)
Definition program (cmd : string) : string := hd EmptyString (split_spaces cmd).
Definition arguments (cmd : string) : list string := tl (split_spaces cmd).

Section Start.
Context `{Runtime}.

(** [startServer], up to its first [await]. *)
Definition startServer (cmd : string) (m : Manager) : Manager :=
  let call := length (calls m) in
  match registry_get cmd (servers m) with
  | Some _ => returned (Some (Fulfilled RVoid)) m
  | None =>
      match spawn (program cmd) (arguments cmd) with
      | SpawnThrows e => returned (Some (Rejected e)) m
      | NoStdout =>
          {| servers := servers m;
             heap := heap m;
             spawned := spawned m ++ [(program cmd, arguments cmd)];
             killed := killed m;
             calls := calls m ++ [Some (Rejected stdout_is_null)] |}
      | Spawned =>
          let addr := length (heap m) in
          let server :=
            sendRequest (new_server cmd) "initialize" (Some initialize_params)
              (AwaitInitialize call addr) in
          {| servers := registry_set cmd addr (servers m);
             heap := heap m ++ [server];
             spawned := spawned m ++ [(program cmd, arguments cmd)];
             killed := killed m;
             calls := calls m ++ [None] |}
      end
  end.

End Start.

(** The body of [stopServer]. *)
Definition stop (cmd : string) (m : Manager) : Manager :=
  match registry_get cmd (servers m) with
  | None => m
  | Some addr =>
      {| servers := registry_delete cmd (servers m);
         heap := heap m;
         spawned := spawned m;
         killed := killed m ++ [addr];
         calls := calls m |}
  end.

Definition stopServer (cmd : string) (m : Manager) : Manager :=
  returned (Some (Fulfilled RVoid)) (stop cmd m).

Definition stopAllServers (m : Manager) : Manager :=
  returned (Some (Fulfilled RVoid))
    (fold_left (fun m' cmd => stop cmd m') (getActiveServers m) m).

(** The listeners of the child's [exit] and [error] events:
    [this.servers.delete(command)]. *)
Definition process_gone (addr : nat) (m : Manager) : Manager :=
  match heap m !! addr with
  | None => m
  | Some server =>
      {| servers := registry_delete (command server) (servers m);
         heap := heap m;
         spawned := spawned m; killed := killed m;
         calls := calls m |}
  end.

(** *** The tool catalog *)

(** One entry of [getAllTools()].  The handler is a closure over the
    [server] object and the [tool] it was built from. *)
Record ToolDescriptor : Type := {
  name : string;
  description : option json;
  parameters : zod;
  handler_server : nat;
  handler_tool : json
}.

#[global] Instance result_ret : MRet result := fun A a => Ok a.

(** [for (const x of v)]. *)
Definition iterate (v : json) : result (list json) :=
  match v with
  | JArr l => Ok l
  | JStr s => Ok (JStr <$> string_chars s)
  | _ => Throw TypeError
  end.

Definition newline : string := String (ascii_of_nat 10) EmptyString.

Section Catalog.
Context `{Runtime}.

Definition convert_tool (addr : nat) (tool : json) : result ToolDescriptor :=
  inputSchema ← get_prop (Some tool) "inputSchema";
  zodSchema ← convertSchemaToZod inputSchema;
  toolName ← get_prop (Some tool) "name";
  toolDescription ← get_prop (Some tool) "description";
  Ok {| name := "mcp_" ++ template toolName;
        description := toolDescription;
        parameters := zodSchema;
        handler_server := addr;
        handler_tool := tool |}.

Definition server_tools (m : Manager) (entry : string * nat)
  : result (list ToolDescriptor) :=
  match heap m !! snd entry with
  | Some server =>
      ts ← iterate (tools server);
      mapM (convert_tool (snd entry)) ts
  | None => Ok []
  end.

Definition getAllTools (m : Manager) : result (list ToolDescriptor) :=
  perServer ← mapM (server_tools m) (servers m);
  Ok (List.concat perServer).

(** *** The handler of a catalog entry *)

(** [c.type === "text"], the test of the [filter]. *)
Definition block_is_text (c : json) : result bool :=
  t ← get_prop (Some c) "type"; Ok (is_string t "text").

Fixpoint filter_text (blocks : list json) : result (list json) :=
  match blocks with
  | [] => Ok []
  | c :: rest =>
      keep ← block_is_text c;
      kept ← filter_text rest;
      Ok (if (keep : bool) then c :: kept else kept)
  end.

(** The handler after [await this.sendRequest(...)] has produced
    the result [res]: the text of the blocks, or the encoded result. *)
Definition handler_result (res : option json) : result string :=
  content ← get_prop res "content";
  match content with
  | Some (JArr blocks) =>
      kept ← filter_text blocks;
      texts ← mapM (fun c => get_prop (Some c) "text") kept;
      Ok (Array_join newline texts)
  | _ =>
      match res with
      | Some r => Ok (JSON_stringify r)
      | None => Throw TypeError
      end
  end.

(** The [params] of the [tools/call] request, as they reach the wire: a
    property whose value is [undefined] is not written. *)
Definition tools_call_params (toolName : option json) (params : json) : json :=
  JObj (match toolName with
        | Some n => [("name", n)]
        | None => []
        end ++ [("arguments", params)]).

(** The handler up to its [await]: reading [tool.name] and
    [Object.entries(params)] may throw, which the [catch] block logs and
    throws again. *)
Definition handler_request (tool : json) (params : option json) : result json :=
  toolName ← get_prop (Some tool) "name";
  match params with
  | None => Throw TypeError
  | Some JNull => Throw TypeError
  | Some p => Ok (tools_call_params toolName p)
  end.

Definition call_handler (addr : nat) (tool : json) (params : option json)
    (m : Manager) : Manager :=
  let call := length (calls m) in
  match heap m !! addr with
  | None => m
  | Some server =>
      match handler_request tool params with
      | Throw e => returned (Some (Rejected e)) m
      | Ok p =>
          returned None
            (with_heap
               (<[addr := sendRequest server "tools/call" (Some p) (AwaitToolsCall call)]>
                  (heap m)) m)
      end
  end.

(** *** Resuming a suspended caller *)

(** [listTools] after its [await]: the assignment [server.tools =
    result.tools || []]; whatever is thrown there or by the logging that
    follows is caught inside [listTools]. *)
Definition store_tools (addr : nat) (res : option json) (m : Manager) : Manager :=
  match heap m !! addr, get_prop res "tools" with
  | Some server, Ok found =>
      let listed := match found with
                    | Some t => if js_truthy found then t else JArr []
                    | None => JArr []
                    end in
      with_heap
        (<[addr := {| tools := listed;
                      nextId := nextId server;
                      pendingRequests := pendingRequests server;
                      command := command server;
                      written := written server |}]> (heap m)) m
  | _, _ => m
  end.

Definition resume (k : cont) (r : reply) (m : Manager) : Manager :=
  match k with
  | AwaitInitialize call addr =>
      match r with
      | Resolve _ =>
          match heap m !! addr with
          | Some server =>
              with_heap
                (<[addr := sendRequest server "tools/list" None (AwaitToolsList call addr)]>
                   (heap m)) m
          | None => m
          end
      | Reject e => settle call (Rejected e) m
      end
  | AwaitToolsList call addr =>
      match r with
      | Resolve res => settle call (Fulfilled RVoid) (store_tools addr res m)
      | Reject _ => settle call (Fulfilled RVoid) m
      end
  | AwaitToolsCall call =>
      match r with
      | Resolve res =>
          match handler_result res with
          | Ok text => settle call (Fulfilled (RString text)) m
          | Throw e => settle call (Rejected e) m
          end
      | Reject e => settle call (Rejected e) m
      end
  end.

(** *** Everything that can happen to a manager *)

Inductive event : Type :=
| CallStartServer (cmd : string)
| CallStopServer (cmd : string)
| CallStopAllServers
| CallHandler (server : nat) (tool : json) (params : option json)
| Line (server : nat) (line : string)
| Lines (server : nat) (lines : list string)
| ProcessExit (server : nat)
| ProcessError (server : nat).

(** The listener over the lines of one chunk of output. *)
Fixpoint read_lines {K} (server : MCPServer K) (lines : list string)
  : MCPServer K * list (settlement K) :=
  match lines with
  | [] => (server, [])
  | line :: rest =>
      let '(server', released) := onLine server line in
      let '(server'', later) := read_lines server' rest in
      (server'',
       match released with
       | Some s => s :: later
       | None => later
       end)
  end.

(** A chunk read from the standard output of process [addr] that holds
    several lines: [readline] runs the listener on every line of the
    chunk, and the callers released meanwhile resume afterwards, in the
    order of their release. *)
Definition on_lines (addr : nat) (lines : list string) (m : Manager) : Manager :=
  match heap m !! addr with
  | None => m
  | Some server =>
      let '(server', released) := read_lines server lines in
      fold_left (fun m' s => resume (s_waiter s) (s_reply s) m') released
        (with_heap (<[addr := server']> (heap m)) m)
  end.

(** A line read from the standard output of process [addr] in a chunk
    of its own: the line listener runs, then the caller it has
    released, if any. *)
Definition on_line (addr : nat) (line : string) (m : Manager) : Manager :=
  match heap m !! addr with
  | None => m
  | Some server =>
      let '(server', released) := onLine server line in
      let m' := with_heap (<[addr := server']> (heap m)) m in
      match released with
      | Some s => resume (s_waiter s) (s_reply s) m'
      | None => m'
      end
  end.

Definition step (m : Manager) (e : event) : Manager :=
  match e with
  | CallStartServer cmd => startServer cmd m
  | CallStopServer cmd => stopServer cmd m
  | CallStopAllServers => stopAllServers m
  | CallHandler addr tool params => call_handler addr tool params m
  | Line addr line => on_line addr line m
  | Lines addr lines => on_lines addr lines m
  | ProcessExit addr => process_gone addr m
  | ProcessError addr => process_gone addr m
  end.

Definition run (events : list event) (m : Manager) : Manager :=
  fold_left step events m.

End Catalog.

(** ** A runtime to run the model on concrete lines

    [Sample.parse] reads the JSON texts written in ASCII without [\u]
    escapes (it answers [None] on the others, and keeps a key that
    spells an array index where it appears, while the engine enumerates
    such keys first); [Sample.stringify] writes them back without
    spaces.  Fractions are spelt as a quotient.  The theorems below hold
    for every [Runtime]; this one serves their examples. *)
Module Sample.

Definition code (c : ascii) : nat := nat_of_ascii c.

Definition is_ws (c : ascii) : bool :=
  let n := code c in
  Nat.eqb n 32 || Nat.eqb n 9 || Nat.eqb n 10 || Nat.eqb n 13.

Fixpoint skip_ws (s : string) : string :=
  match s with
  | String c rest => if is_ws c then skip_ws rest else s
  | EmptyString => s
  end.

Definition digit_of (c : ascii) : option Z :=
  let n := code c in
  if Nat.leb 48 n && Nat.leb n 57 then Some (Z.of_nat (n - 48)) else None.

(** The digits at the head of [s]: their value after [acc], how many
    there are, and what follows. *)
Fixpoint read_digits (acc : Z) (count : nat) (s : string) : Z * nat * string :=
  match s with
  | String c rest =>
      match digit_of c with
      | Some d => read_digits (10 * acc + d) (S count) rest
      | None => (acc, count, s)
      end
  | EmptyString => (acc, count, s)
  end.

Definition starts_with (c : nat) (s : string) : option string :=
  match s with
  | String d rest => if Nat.eqb (code d) c then Some rest else None
  | EmptyString => None
  end.

Definition pow10 (e : Z) : Q :=
  if Z.leb 0 e then inject_Z (10 ^ e) else Qinv (inject_Z (10 ^ (- e))).

(** [-? int frac? exp?] *)
Definition parse_number (s : string) : option (Q * string) :=
  let '(negative, s1) :=
    match starts_with 45 s with Some r => (true, r) | None => (false, s) end in
  let '(int, n, s2) := read_digits 0 0 s1 in
  if Nat.eqb n 0 then None
  else if Nat.ltb 1 n && bool_decide (starts_with 48 s1 ≠ None) then None
  else
    let '(fraction, s3) :=
      match starts_with 46 s2 with
      | Some r => let '(f, k, r') := read_digits 0 0 r in (Some (f, k), r')
      | None => (None, s2)
      end in
    let exponent_at :=
      match starts_with 101 s3, starts_with 69 s3 with
      | Some r, _ => Some r
      | None, Some r => Some r
      | None, None => None
      end in
    let '(exponent, s4) :=
      match exponent_at with
      | Some r =>
          let '(minus, r1) :=
            match starts_with 45 r, starts_with 43 r with
            | Some r', _ => (true, r')
            | None, Some r' => (false, r')
            | None, None => (false, r)
            end in
          let '(e, k, r2) := read_digits 0 0 r1 in
          (Some ((if minus then - e else e)%Z, k), r2)
      | None => (None, s3)
      end in
    match fraction, exponent with
    | Some (_, O), _ => None
    | _, Some (_, O) => None
    | _, _ =>
        let mantissa :=
          match fraction with
          | Some (f, k) =>
              Qplus (inject_Z int) (Qmult (inject_Z f) (pow10 (- Z.of_nat k)))
          | None => inject_Z int
          end in
        let scaled :=
          match exponent with
          | Some (e, _) => Qmult mantissa (pow10 e)
          | None => mantissa
          end in
        Some (Qred (if negative then Qopp scaled else scaled), s4)
    end.

Definition unescape (c : ascii) : option ascii :=
  let n := code c in
  if Nat.eqb n 34 || Nat.eqb n 92 || Nat.eqb n 47 then Some c
  else if Nat.eqb n 98 then Some (ascii_of_nat 8)
  else if Nat.eqb n 102 then Some (ascii_of_nat 12)
  else if Nat.eqb n 110 then Some (ascii_of_nat 10)
  else if Nat.eqb n 114 then Some (ascii_of_nat 13)
  else if Nat.eqb n 116 then Some (ascii_of_nat 9)
  else None.

(** The characters after an opening quote, up to the closing one. *)
Fixpoint parse_chars (s : string) : option (string * string) :=
  match s with
  | EmptyString => None
  | String c rest =>
      let n := code c in
      if Nat.eqb n 34 then Some (EmptyString, rest)
      else if Nat.ltb n 32 || Nat.ltb 127 n then None
      else if Nat.eqb n 92 then
        match rest with
        | String e rest' =>
            match unescape e, parse_chars rest' with
            | Some c', Some (t, r) => Some (String c' t, r)
            | _, _ => None
            end
        | EmptyString => None
        end
      else
        match parse_chars rest with
        | Some (t, r) => Some (String c t, r)
        | None => None
        end
  end.

(** A member parsed again replaces the earlier value in place. *)
Fixpoint member_set (key : string) (v : json) (fs : list (string * json))
  : list (string * json) :=
  match fs with
  | [] => [(key, v)]
  | (k, w) :: rest =>
      if String.eqb k key then (k, v) :: rest else (k, w) :: member_set key v rest
  end.

Definition keyword (word : string) (v : json) (s : string) : option (json * string) :=
  if String.prefix word s
  then Some (v, String.substring (String.length word) (String.length s) s)
  else None.

Fixpoint parse_value (fuel : nat) (s : string) : option (json * string) :=
  match fuel with
  | O => None
  | S fuel' =>
      match skip_ws s with
      | EmptyString => None
      | String c rest =>
          let n := code c in
          if Nat.eqb n 123 then
            match starts_with 125 (skip_ws rest) with
            | Some r => Some (JObj [], r)
            | None => parse_members fuel' [] rest
            end
          else if Nat.eqb n 91 then
            match starts_with 93 (skip_ws rest) with
            | Some r => Some (JArr [], r)
            | None => parse_elements fuel' [] rest
            end
          else if Nat.eqb n 34 then
            match parse_chars rest with
            | Some (t, r) => Some (JStr t, r)
            | None => None
            end
          else if Nat.eqb n 110 then keyword "null" JNull (String c rest)
          else if Nat.eqb n 116 then keyword "true" (JBool true) (String c rest)
          else if Nat.eqb n 102 then keyword "false" (JBool false) (String c rest)
          else
            match parse_number (String c rest) with
            | Some (q, r) => Some (JNum q, r)
            | None => None
            end
      end
  end
with parse_elements (fuel : nat) (acc : list json) (s : string)
  : option (json * string) :=
  match fuel with
  | O => None
  | S fuel' =>
      match parse_value fuel' s with
      | Some (v, r) =>
          let r' := skip_ws r in
          match starts_with 44 r', starts_with 93 r' with
          | Some more, _ => parse_elements fuel' (acc ++ [v]) more
          | None, Some done => Some (JArr (acc ++ [v]), done)
          | None, None => None
          end
      | None => None
      end
  end
with parse_members (fuel : nat) (acc : list (string * json)) (s : string)
  : option (json * string) :=
  match fuel with
  | O => None
  | S fuel' =>
      match starts_with 34 (skip_ws s) with
      | Some r =>
          match parse_chars r with
          | Some (key, r1) =>
              match starts_with 58 (skip_ws r1) with
              | Some r2 =>
                  match parse_value fuel' r2 with
                  | Some (v, r3) =>
                      let r4 := skip_ws r3 in
                      match starts_with 44 r4, starts_with 125 r4 with
                      | Some more, _ => parse_members fuel' (member_set key v acc) more
                      | None, Some done => Some (JObj (member_set key v acc), done)
                      | None, None => None
                      end
                  | None => None
                  end
              | None => None
              end
          | None => None
          end
      | None => None
      end
  end.

Definition parse (text : string) : option json :=
  match parse_value (2 * String.length text + 2) text with
  | Some (v, rest) =>
      match skip_ws rest with
      | EmptyString => Some v
      | String _ _ => None
      end
  | None => None
  end.

Definition decimal (z : Z) : string := NilZero.string_of_int (Z.to_int z).

Definition number_text (q : Q) : string :=
  let r := Qred q in
  if Pos.eqb (Qden r) 1 then decimal (Qnum r)
  else decimal (Qnum r) ++ "/" ++ decimal (Zpos (Qden r)).

Definition quote : string := String (ascii_of_nat 34) EmptyString.

Fixpoint escape (s : string) : string :=
  match s with
  | EmptyString => EmptyString
  | String c rest =>
      let n := code c in
      if Nat.eqb n 34 || Nat.eqb n 92
      then String (ascii_of_nat 92) (String c (escape rest))
      else if Nat.eqb n 10 then String (ascii_of_nat 92) (String (ascii_of_nat 110) (escape rest))
      else String c (escape rest)
  end.

Fixpoint stringify (v : json) : string :=
  match v with
  | JNull => "null"
  | JBool true => "true"
  | JBool false => "false"
  | JNum q => number_text q
  | JStr s => quote ++ escape s ++ quote
  | JArr l => "[" ++ String.concat "," (map stringify l) ++ "]"
  | JObj fs =>
      "{" ++
      String.concat ","
        (map (fun kv : string * json =>
                (quote ++ escape (fst kv) ++ quote ++ ":" ++ stringify (snd kv))%string) fs)
      ++ "}"
  end.

Definition min_ok (bound : json) (q : Q) : bool :=
  match bound with
  | JNull => Qle_bool 0 q
  | JBool b => Qle_bool (if b then 1 else 0) q
  | _ => true
  end.

(** A JSON text written with ['] for the double quote. *)
Fixpoint text (s : string) : string :=
  match s with
  | EmptyString => EmptyString
  | String c rest =>
      String (if Nat.eqb (code c) 39 then ascii_of_nat 34 else c) (text rest)
  end.

(** [spawn] refuses an empty program name. *)
Definition launch (cmd : string) (args : list string) : spawn_result :=
  if String.eqb cmd "" then SpawnThrows TypeError else Spawned.

#[export] Instance runtime : Runtime :=
  {| spawn := launch;
     JSON_parse := parse;
     JSON_stringify := stringify;
     Number_toString := number_text;
     coerced_min_ok := min_ok |}.

End Sample.

(** ** A provider to run the examples against

    Lines as a provider writes them (with ['] for the double quote),
    and the tool it lists. *)
Module Provider.

Definition initialize_result : string :=
  Sample.text "{'jsonrpc':'2.0','id':1,'result':{'protocolVersion':'2024-11-05','capabilities':{}}}".

Definition initialize_error : string :=
  Sample.text "{'jsonrpc':'2.0','id':1,'error':{'code':-32603,'message':'boom'}}".

Definition tools_list_result : string :=
  Sample.text "{'jsonrpc':'2.0','id':2,'result':{'tools':[{'name':'search','description':'Find things','inputSchema':{'type':'object','properties':{'query':{'type':'string'}},'required':['query']}}]}}".


Definition search_tool : json :=
  JObj [("name", JStr "search");
        ("description", JStr "Find things");
        ("inputSchema",
         JObj [("type", JStr "object");
               ("properties", JObj [("query", JObj [("type", JStr "string")])]);
               ("required", JArr [JStr "query"])])].

Definition search_params : json := JObj [("query", JStr "rocq")].


Definition call_result_text : string :=
  Sample.text "{'jsonrpc':'2.0','id':3,'result':{'content':[{'type':'text','text':'one'},{'type':'image','data':'AAAA'},{'type':'text','text':'two'}]}}".


(** One session started and ready. *)
Definition ready (cmd : string) (addr : nat) : list event :=
  [CallStartServer cmd; Line addr initialize_result; Line addr tools_list_result].



End Provider.

(** ** Notions used by the statements *)

(** What a response tells the caller it answers: the rejection with
    the message of its [error], or its [result]. *)
Definition response_outcome (message : json) : reply :=
  match message with
  | JObj fs =>
      let error := lookup_field "error" fs in
      if js_truthy error then
        Reject (PlainError match error with
                         | Some (JObj efs) => lookup_field "message" efs
                         | _ => None
                         end)
      else Resolve (lookup_field "result" fs)
  | _ => Resolve None
  end.





(** The registry holds each command once, and the object it holds for
    a command was created for that command. *)
Definition registry_ok (m : Manager) : Prop :=
  NoDup (getActiveServers m) /\
  forall cmd addr,
    registry_get cmd (servers m) = Some addr ->
    command <$> heap m !! addr = Some cmd.

(** ** The command dispatcher of the REPL

    [handleCommand] and [runCommand] of the REPL service, which the
    sources carry after the manager in [src/utils/mcp.ts], and the parts
    of [src/main.ts] that feed the manager: the handlers of [/mcp],
    [/ignore] and [/unignore] and the loop over the flags of the command
    line.  Here a character of a string stands for one UTF-16 code unit
    below 256. *)
Module Repl.

(** The white space and line terminators [String.prototype.trim]
    strips, among the code units below 256. *)
Definition is_space (c : ascii) : bool :=
  let n := nat_of_ascii c in
  Nat.eqb n 9 || Nat.eqb n 10 || Nat.eqb n 11 || Nat.eqb n 12 || Nat.eqb n 13 ||
  Nat.eqb n 32 || Nat.eqb n 160.

Fixpoint trim_start (s : string) : string :=
  match s with
  | String c rest => if is_space c then trim_start rest else s
  | EmptyString => s
  end.

Fixpoint trim_end (s : string) : string :=
  match s with
  | EmptyString => EmptyString
  | String c rest =>
      match trim_end rest with
      | EmptyString => if is_space c then EmptyString else String c EmptyString
      | kept => String c kept
      end
  end.

Definition trim (s : string) : string := trim_end (trim_start s).

(** [Command.command]: [string | string[]]. *)
Inductive spelling : Type :=
| One (c : string)
| Several (cs : list string).

(** [Command<T>], over the type [H] of the handlers. *)
Record Command (H : Type) : Type := {
  label : string;            (* name *)
  spelled : spelling;        (* command *)
  handler : H
}.
Arguments label {H} _.
Arguments spelled {H} _.
Arguments handler {H} _.

(** The test of the [find]: [includes] for an array, [===] for a
    string. *)
Definition matches {H} (commandName : string) (cmd : Command H) : bool :=
  match spelled cmd with
  | One c => String.eqb c commandName
  | Several cs => existsb (fun c => String.eqb c commandName) cs
  end.

(** What the help handler prints after its heading: for each command
    its spelling (the spellings of an array joined with ", ") and its
    name. *)
Definition help_listing {H} (commands : list (Command H)) : list (string * string) :=
  map (fun cmd =>
         (match spelled cmd with
          | One c => c
          | Several cs => String.concat ", " cs
          end, label cmd)) commands.

(** What a call does besides returning: it runs a handler on its
    arguments, prints the help, says the command is unknown, or
    nothing. *)
Inductive effect (H : Type) : Type :=
| Runs (h : H) (args : list string)
| ShowsHelp (listing : list (string * string))
| SaysUnknown
| Silent.
Arguments Runs {H} h args.
Arguments ShowsHelp {H} listing.
Arguments SaysUnknown {H}.
Arguments Silent {H}.

Definition starts_with_slash (s : string) : bool :=
  match s with
  | String c _ => Ascii.eqb c "/"%char
  | EmptyString => false
  end.

(** [allCommands]: the commands given, then the help command; [None]
    stands for the handler [createHelpHandler(commands)]. *)
Definition allCommands {H} (commands : list (Command H)) : list (Command (option H)) :=
  map (fun cmd => {| label := label cmd; spelled := spelled cmd;
                     handler := Some (handler cmd) |}) commands ++
  [{| label := "Show this help message"; spelled := One "/help"; handler := None |}].

(** [handleCommand]: the boolean it returns, and what it does. *)
Definition handleCommand {H} (input : string) (commands : list (Command H))
  : bool * effect H :=
  let trimmed := trim input in
  if String.eqb trimmed "" then (true, Silent)
  else if negb (starts_with_slash trimmed) then (false, Silent)
  else
    let parts := split_spaces trimmed in
    let commandName := hd EmptyString parts in
    let args := tl parts in
    match find (matches commandName) (allCommands commands) with
    | Some cmd =>
        (true,
         match handler cmd with
         | Some h => Runs h args
         | None => ShowsHelp (help_listing commands)
         end)
    | None => (true, SaysUnknown)
    end.

(** [runCommand] of [createREPL]. *)
Definition runCommand {H} (commandName : string) (args : list string)
    (commands : list (Command H)) : effect H :=
  match find (matches ("/" ++ commandName)%string) commands with
  | Some cmd => Runs (handler cmd) args
  | None => Silent
  end.

(** The handler of [/mcp] in [main.ts], by what it asks of the
    manager. *)
Inductive mcp_request : Type :=
| ListServers
| Stop (cmd : string)
| StopAll
| Start (cmd : string).

Definition mcp_handler (args : list string) : mcp_request :=
  match args with
  | [] => ListServers
  | first :: rest =>
      if String.eqb first "stop" && Nat.ltb 1 (length args)
      then Stop (String.concat " " rest)
      else if String.eqb first "stop-all" then StopAll
      else Start (String.concat " " args)
  end.

(** The handlers of [/ignore] and [/unignore] of [main.ts], by what
    they leave in [context.ignorePatterns]: [None] for [undefined]. *)
Definition ignore_handler (args : list string) (patterns : option (list json))
  : option (list json) :=
  match args with
  | [] => patterns
  | _ =>
      let pattern := String.concat " " args in
      let current := default [] patterns in
      if negb (array_includes current pattern)
      then Some (current ++ [JStr pattern])
      else Some current
  end.

(** [splice(indexOf(pattern), 1)] when [indexOf] finds the pattern. *)
Fixpoint remove_first (pattern : string) (patterns : list json) : list json :=
  match patterns with
  | [] => []
  | JStr p :: rest =>
      if String.eqb p pattern then rest else JStr p :: remove_first pattern rest
  | v :: rest => v :: remove_first pattern rest
  end.

Definition unignore_handler (args : list string) (patterns : option (list json))
  : option (list json) :=
  match args with
  | [] => patterns
  | _ => Some (remove_first (String.concat " " args) (default [] patterns))
  end.

(** The loop of [main] over the flags of the command line: the keys
    it leaves to [parseConfiguration], and what one flag runs. *)
Definition reserved : list string :=
  ["_"; "model"; "provider"; "log-level"; "log-file"; "ignore"; "mcp"].

(** [cmd.command === name]: never true of an array. *)
Definition spelled_exactly {H} (name : string) (cmd : Command H) : bool :=
  match spelled cmd with
  | One c => String.eqb c name
  | Several _ => false
  end.

(** [Array.isArray(value) ? value : [value].filter((v) => v !== true)]. *)
Definition flag_args (value : json) : list json :=
  match value with
  | JArr l => l
  | JBool true => []
  | v => [v]
  end.

Definition run_flag `{Runtime} {T} (key : string) (value : json)
    (commands : list (Command T)) : effect T :=
  if negb (existsb (String.eqb key) reserved) &&
     existsb (spelled_exactly ("/" ++ key)%string) commands
  then runCommand key (map js_toString (flag_args value)) commands
  else Silent.

(** The handlers of the [commands] of [main.ts], by name. *)
Inductive action : Type :=
| SayHello | ChangeDirectory | PrintTree | SetModel | SetProvider | SetLogLevel
| SetLogFile | Ignore | Unignore | ClearScreen | ManageMcp | ExitRepl.

(** The [commands] table of [main.ts]. *)
Definition commands : list (Command action) :=
  [{| label := "Say hello"; spelled := One "/hello"; handler := SayHello |};
   {| label := "Show or change current working directory"; spelled := One "/cwd";
      handler := ChangeDirectory |};
   {| label := "Print a recursive tree of the current working directory";
      spelled := One "/tree"; handler := PrintTree |};
   {| label := "Set or show the current AI model"; spelled := One "/model";
      handler := SetModel |};
   {| label := "Set or show the current provider"; spelled := One "/provider";
      handler := SetProvider |};
   {| label := "Set or show the current log level"; spelled := One "/log-level";
      handler := SetLogLevel |};
   {| label := "Set or show the current log file"; spelled := One "/log-file";
      handler := SetLogFile |};
   {| label := "Add pattern to ignore list"; spelled := One "/ignore";
      handler := Ignore |};
   {| label := "Remove pattern from ignore list"; spelled := One "/unignore";
      handler := Unignore |};
   {| label := "Clear the terminal screen"; spelled := One "/clear";
      handler := ClearScreen |};
   {| label := "Manage MCP servers"; spelled := One "/mcp"; handler := ManageMcp |};
   {| label := "Exit the REPL"; spelled := Several ["/exit"; "/quit"];
      handler := ExitRepl |}].

End Repl.

(** ** The configuration of [src/utils/config.ts]

    The file system, the working directory and the home directory are
    the platform's.  [argv] is the object [minimist] returns, as the
    list of its properties. *)
Module Config.

Class Platform : Type := {
  (** [process.cwd()]. *)
  cwd : string;
  (** [os.homedir?.()] and [process.env.HOME]: [None] for [undefined]. *)
  os_homedir : option string;
  env_HOME : option string;
  (** [path.join(dir, ".aicode", "config.json")]. *)
  config_path : string -> string;
  (** [fs.existsSync]. *)
  existsSync : string -> bool;
  (** [fs.readFileSync(path, "utf-8")]: [None] when it throws. *)
  readFileSync : string -> option string
}.

Record ParsedConfig : Type := {
  logLevel : option json;
  logFile : option json;
  model : option json;
  provider : option json;
  ignorePatterns : list json;
  mcpServers : list json;
  configSource : option string
}.

(** [a || b] on strings that may be [undefined]. *)
Definition string_or (a : option string) (b : option string) : option string :=
  match a with
  | Some s => if String.eqb s "" then b else a
  | None => b
  end.

(** [a || b], where reading [b] may throw. *)
Definition value_or (a : option json) (b : result (option json)) : result (option json) :=
  if js_truthy a then Ok a else b.

(** [Array.isArray(v) ? v : v ? [v] : []]. *)
Definition cli_list (v : option json) : list json :=
  match v with
  | Some (JArr l) => l
  | Some x => if js_truthy v then [x] else []
  | None => []
  end.

(** [[...(found || []), ...cli]]. *)
Definition merged_list (found : option json) (cli : list json) : result (list json) :=
  l ← iterate (if js_truthy found then default (JArr []) found else JArr []);
  Ok (l ++ cli).

Section Configuration.
Context `{Runtime} `{Platform}.

Definition findAiCodeConfigPath (startDir : string) : option string :=
  let projectConfigPath := config_path startDir in
  if existsSync projectConfigPath then Some projectConfigPath
  else
    match string_or (string_or os_homedir env_HOME) (Some "") with
    | Some homeDir =>
        if negb (String.eqb homeDir "") then
          let homeConfigPath := config_path homeDir in
          if existsSync homeConfigPath then Some homeConfigPath else None
        else None
    | None => None
    end.

Definition loadAiCodeConfig (startDir : string) : json :=
  match string_or (findAiCodeConfigPath startDir) None with
  | None => JObj []
  | Some configPath =>
      match readFileSync configPath with
      | Some configContent =>
          match JSON_parse configContent with
          | Some config => config
          | None => JObj []
          end
      | None => JObj []
      end
  end.

(** [source ? loadAiCodeConfig() : {}] of [parseConfiguration]. *)
Definition config_in_force : json :=
  match string_or (findAiCodeConfigPath cwd) None with
  | Some _ => loadAiCodeConfig cwd
  | None => JObj []
  end.

Definition parseConfiguration (argv : list (string * json)) : result ParsedConfig :=
  let source := findAiCodeConfigPath cwd in
  let config := config_in_force in
  logLevel ← value_or (lookup_field "log-level" argv)
               (found ← get_prop (Some config) "logLevel";
                value_or found (Ok (Some (JStr "warn"))));
  logFile ← value_or (lookup_field "log-file" argv) (get_prop (Some config) "logFile");
  model ← value_or (lookup_field "model" argv) (get_prop (Some config) "model");
  provider ← value_or (lookup_field "provider" argv) (get_prop (Some config) "provider");
  configIgnore ← get_prop (Some config) "ignore";
  ignorePatterns ← merged_list configIgnore (cli_list (lookup_field "ignore" argv));
  configMcp ← get_prop (Some config) "mcp";
  mcpServers ← merged_list configMcp (cli_list (lookup_field "mcp" argv));
  Ok {| logLevel := logLevel; logFile := logFile; model := model; provider := provider;
        ignorePatterns := ignorePatterns; mcpServers := mcpServers;
        configSource := source |}.

End Configuration.

End Config.

(** ** The start of [main]

    The loop of [main] over [config.mcpServers], which awaits each
    [startServer] before the next and creates the REPL after the last.
    [awaited] names the promise [main] is suspended on, [queue] the
    commands still to start; the REPL is created when the loop has
    ended. *)
Module Startup.

Record Main : Type := {
  manager : Manager;
  queue : list json;
  awaited : option nat
}.

Section Loop.
Context `{Runtime}.

(** [mcpManager.startServer(mcpCommand)]: on what is not a string,
    [command.split] is not a function. *)
Definition start_one (mcpCommand : json) (m : Manager) : Manager :=
  match mcpCommand with
  | JStr cmd => startServer cmd m
  | _ => returned (Some (Rejected TypeError)) m
  end.

(** The loop, up to the first promise that is still pending. *)
Fixpoint main_loop (mcpServers : list json) (m : Manager) : Main :=
  match mcpServers with
  | [] => {| manager := m; queue := []; awaited := None |}
  | mcpCommand :: rest =>
      let call := length (calls m) in
      let m' := start_one mcpCommand m in
      match calls m' !! call with
      | Some (Some _) => main_loop rest m'
      | _ => {| manager := m'; queue := rest; awaited := Some call |}
      end
  end.

(** [main] from its first line, on the manager of the module. *)
Definition main_begin (mcpServers : list json) : Main := main_loop mcpServers initial.

(** An event of the manager while [main] is suspended; [main] goes on
    when the promise it awaits has settled. *)
Definition main_step (s : Main) (e : event) : Main :=
  let m := step (manager s) e in
  match awaited s with
  | Some call =>
      match calls m !! call with
      | Some (Some _) => main_loop (queue s) m
      | _ => {| manager := m; queue := queue s; awaited := Some call |}
      end
  | None => {| manager := m; queue := queue s; awaited := None |}
  end.

Definition main_run (events : list event) (s : Main) : Main :=
  fold_left main_step events s.

(** Whether [createREPL] has been reached. *)
Definition repl_created (s : Main) : bool :=
  match awaited s with
  | None => true
  | Some _ => false
  end.

(** An event that is no answer to the request with id 1: the exit or
    an error of a process, or a line that is not JSON or answers
    another id. *)
Definition no_answer_to_initialize (e : event) : Prop :=
  match e with
  | ProcessExit _ | ProcessError _ => True
  | Line _ line =>
      match JSON_parse line with
      | Some message => response_id message <> Some 1%Z
      | None => True
      end
  | _ => False
  end.

End Loop.

End Startup.

(** ** A disk and more provider lines to run the examples against *)
Module Disk.

(** A platform with the given files under the working directory
    [/work]: a file whose content is [None] exists and cannot be
    read. *)
Definition platform (home : option string) (files : list (string * option string))
  : Config.Platform :=
  {| Config.cwd := "/work";
     Config.os_homedir := home;
     Config.env_HOME := None;
     Config.config_path := fun dir => (dir ++ "/.aicode/config.json")%string;
     Config.existsSync := fun path => bool_decide (is_Some (lookup_field path files));
     Config.readFileSync := fun path => default None (lookup_field path files) |}.

Definition home_config : string :=
  Sample.text "{'model':'m1','logLevel':'debug','ignore':['dist'],'mcp':['npx a']}".

(** A configuration in the home directory only. *)
Definition at_home : Config.Platform :=
  platform (Some "/home/me") [("/home/me/.aicode/config.json", Some home_config)].

(** A project configuration that is not JSON. *)
Definition broken : Config.Platform :=
  platform (Some "/home/me")
    [("/work/.aicode/config.json", Some "{oops");
     ("/home/me/.aicode/config.json", Some home_config)].

(** A project configuration that holds [null]. *)
Definition null_file : Config.Platform :=
  platform None [("/work/.aicode/config.json", Some "null")].

(** A [tools/list] answer whose list holds [null]. *)
Definition tools_list_null : string :=
  Sample.text "{'jsonrpc':'2.0','id':2,'result':{'tools':[null]}}".

(** The requests of a finished handshake. *)
Definition handshake_requests : list request :=
  [{| req_id := 1; req_method := "initialize"; req_params := Some initialize_params |};
   {| req_id := 2; req_method := "tools/list"; req_params := None |}].

(** The session object of a command after its handshake. *)
Definition session (cmd : string) (listed : json) : MCPServer cont :=
  {| tools := listed; nextId := 3; pendingRequests := ∅; command := cmd;
     written := handshake_requests |}.

End Disk.

(** ** Notions used by the further statements *)

(** The requests written so far carry the ids 1, 2, ... in order,
    [nextId] is the next one, and only written requests are pending. *)
Definition ids_in_order {K} (server : MCPServer K) : Prop :=
  nextId server = (1 + Z.of_nat (length (written server)))%Z /\
  map req_id (written server) = seqZ 1 (Z.of_nat (length (written server))) /\
  forall id, is_Some (pendingRequests server !! id) -> In id (map req_id (written server)).

(** [result.tools || []]. *)
Definition listed (found : option json) : json :=
  match found with
  | Some t => if js_truthy found then t else JArr []
  | None => JArr []
  end.


(** The tools a session holds, as [for ... of] runs over them. *)
Definition listed_tools (m : Manager) (addr : nat) : list json :=
  match heap m !! addr with
  | Some server =>
      match iterate (tools server) with
      | Ok ts => ts
      | Throw _ => []
      end
  | None => []
  end.






(** * Properties *)

(** ** The schema translator *)


Lemma lookup_field_cons {A} (k k' : string) (v : A) (fs : list (string * A)) :
  lookup_field k ((k', v) :: fs) =
  if String.eqb k' k then Some v else lookup_field k fs.
Proof. unfold lookup_field; simpl. destruct (String.eqb k' k); reflexivity. Qed.

Lemma field_with_lookup {A B} (f : A -> B) (k : string) (fs : list (string * A)) :
  field_with f k fs = f <$> lookup_field k fs.
Proof.
  induction fs as [|[k' v] fs IH]; [reflexivity|].
  simpl. rewrite lookup_field_cons. destruct (String.eqb k' k); [reflexivity | exact IH].
Qed.

Lemma convert_entries_ext (f g : json -> result zod) required entries shape :
  (forall kv, In kv entries -> f (snd kv) = g (snd kv)) ->
  convert_entries f required entries shape = convert_entries g required entries shape.
Proof.
  revert shape. induction entries as [|[key p] rest IH]; intros shape Hfg; [reflexivity|].
  pose proof (Hfg (key, p) (or_introl eq_refl)) as Hp. simpl in Hp.
  simpl. rewrite Hp.
  destruct (g p) as [v|e]; simpl; [|reflexivity].
  destruct (required_includes required key) as [req|e]; simpl; [|reflexivity].
  apply IH. intros kv Hin. apply Hfg. right. exact Hin.
Qed.

Lemma convert_items_entries convert required i items shape :
  convert_items convert required i items shape =
  convert_entries convert required
    (imap (fun j x => (index_key (i + j), x)) items) shape.
Proof.
  revert i shape. induction items as [|p rest IH]; intros i shape; [reflexivity|].
  simpl. rewrite Nat.add_0_r.
  destruct (convert p) as [v|e]; simpl; [|reflexivity].
  destruct (required_includes required (index_key i)) as [req|e]; simpl; [|reflexivity].
  rewrite IH. f_equal. apply imap_ext. intros j x _. simpl.
  f_equal. f_equal. lia.
Qed.

(** A schema that is a string, a number, a boolean or an array has no
    [type]: the [default] arm answers [z.any()]. *)
Lemma convertPropertyToZod_primitive (schema : json) :
  match schema with
  | JNull | JObj _ => True
  | _ => convertPropertyToZod schema = Ok ZAny
  end.
Proof. destruct schema; exact I || reflexivity. Qed.

Lemma In_indexed_chars kv s :
  In kv (indexed (JStr <$> string_chars s)) -> exists c, snd kv = JStr c.
Proof.
  unfold indexed. intros Hin. apply list_elem_of_In in Hin.
  apply elem_of_lookup_imap in Hin as (i & x & -> & Hx).
  rewrite list_lookup_fmap in Hx.
  destruct (string_chars s !! i) as [c|]; simpl in Hx; [|discriminate].
  injection Hx as <-. simpl. eauto.
Qed.

Lemma properties_shape_eq required (properties : json) :
  properties_shape convertPropertyToZod required properties =
  if js_truthy (Some properties)
  then convert_entries convertPropertyToZod required (Object_entries properties) []
  else Ok [].
Proof.
  destruct properties as [|b|q|s|l|ps]; simpl.
  - reflexivity.
  - destruct b; reflexivity.
  - destruct (Qeq_bool q 0); reflexivity.
  - destruct (String.eqb s "") eqn:Hs; simpl.
    + apply String.eqb_eq in Hs. subst s. reflexivity.
    + apply convert_entries_ext. intros kv Hin.
      apply In_indexed_chars in Hin as [c ->]. reflexivity.
  - rewrite convert_items_entries. reflexivity.
  - reflexivity.
Qed.

(** [convertPropertyToZod] computes what the source writes. *)
Lemma convertPropertyToZod_eq (schema : json) :
  convertPropertyToZod schema = convertPropertyToZod_body schema.
Proof.
  destruct schema as [|b|q|s|l|fs]; try reflexivity.
  unfold convertPropertyToZod_body. cbn [get_prop mbind result_bind].
  cbn [convertPropertyToZod].
  destruct (is_string (lookup_field "type" fs) "string"); [reflexivity|].
  destruct (is_string (lookup_field "type" fs) "number"); [reflexivity|].
  destruct (is_string (lookup_field "type" fs) "integer"); [reflexivity|].
  destruct (is_string (lookup_field "type" fs) "boolean"); [reflexivity|].
  destruct (is_string (lookup_field "type" fs) "array").
  { rewrite field_with_lookup. destruct (lookup_field "items" fs); reflexivity. }
  destruct (is_string (lookup_field "type" fs) "object") eqn:Hobj; [|reflexivity].
  unfold convertSchemaToZod. cbn [js_truthy negb get_prop mbind result_bind].
  rewrite Hobj.
  assert (js_truthy (lookup_field "type" fs) = true) as ->.
  { destruct (lookup_field "type" fs) as [[| | |t| |]|]; try discriminate.
    simpl in Hobj. apply String.eqb_eq in Hobj. subst t. reflexivity. }
  cbn [negb]. unfold object_shape. rewrite field_with_lookup.
  destruct (lookup_field "properties" fs) as [p|]; [|reflexivity].
  cbn [fmap option_fmap option_map]. rewrite properties_shape_eq. reflexivity.
Qed.


Lemma In_lookup_field {A} (k : string) (v : A) (fs : list (string * A)) :
  In (k, v) fs -> is_Some (lookup_field k fs).
Proof.
  induction fs as [|[k' w] fs IH]; [intros []|].
  intros Hin. rewrite lookup_field_cons.
  destruct (String.eqb k' k) eqn:Hk; [eauto|].
  destruct Hin as [[= -> ->]|Hin]; [|auto].
  rewrite String.eqb_refl in Hk. discriminate.
Qed.









(** C9 (as the code has it): for a schema that is missing, or that has
    no [type], the translator answers the empty object validator, which
    accepts the objects and nothing else. *)
Theorem missing_schema_or_type_gives_empty_object `{Runtime} (schema : option json) :
  schema = None \/ get_prop schema "type" = Ok None ->
  convertSchemaToZod schema = Ok (ZObject []) /\
  forall input,
    accepts (ZObject []) input =
    match input with Some (JObj _) => true | _ => false end.
Proof.
  intros Hmissing. split.
  - destruct Hmissing as [->|Htype]; [reflexivity|].
    unfold convertSchemaToZod. destruct (js_truthy schema); [|reflexivity].
    cbn [negb]. rewrite Htype. reflexivity.
  - intros [[| | | | |fields]|]; reflexivity.
Qed.

Lemma missing_type_witness :
  get_prop (Some (JObj [("description", JStr "no type here")])) "type" = Ok None /\
  convertSchemaToZod (Some (JObj [("description", JStr "no type here")])) = Ok (ZObject []) /\
  forall input,
    accepts (H := Sample.runtime) (ZObject []) input =
    match input with Some (JObj _) => true | _ => false end.
Proof.
  split; [reflexivity|].
  apply (missing_schema_or_type_gives_empty_object (H := Sample.runtime)).
  right. reflexivity.
Defined.

(** C9 fails as stated: the validator built for a missing schema
    rejects a string. *)
Lemma missing_schema_rejects_a_string :
  convertSchemaToZod None = Ok (ZObject []) /\
  accepts (H := Sample.runtime) (ZObject []) (Some (JStr "hello")) = false.
Proof. split; reflexivity. Qed.

(** ** The request correlator *)

Section CorrelatorFacts.
Context {K : Type}.
Implicit Types (server : MCPServer K) (trace : list (session_event K)).

Lemma reply_of_object (fs : list (string * json)) :
  reply_of (JObj fs) = Ok (response_outcome (JObj fs)).
Proof.
  unfold reply_of, response_outcome. cbn [get_prop mbind result_bind].
  destruct (lookup_field "error" fs) as [[|b|q|s|l|efs]|]; try reflexivity.
  - destruct b; reflexivity.
  - simpl. destruct (Qeq_bool q 0); reflexivity.
  - simpl. destruct (String.eqb s ""); reflexivity.
Qed.

(** [handleMessage] under the line listener, by the id the message
    carries. *)
Lemma session_step_recv server (message : json) :
  session_step server (Recv message) =
  match response_id message with
  | Some key =>
      match pendingRequests server !! key with
      | Some pending =>
          ({| tools := tools server;
              nextId := nextId server;
              pendingRequests := delete key (pendingRequests server);
              command := command server;
              written := written server |},
           [{| s_id := key; s_waiter := pending; s_reply := response_outcome message |}])
      | None => (server, [])
      end
  | None => (server, [])
  end.
Proof.
  destruct message as [|b|q|s|l|fs]; try reflexivity.
  unfold session_step, handleMessage, response_id.
  cbn [has_prop get_prop mbind result_bind].
  destruct (lookup_field "id" fs) as [id|] eqn:Hid.
  - rewrite bool_decide_eq_true_2 by eauto.
    destruct (number_key (Some id)) as [key|]; [|reflexivity].
    destruct (pendingRequests server !! key) as [pending|]; [|reflexivity].
    rewrite reply_of_object. reflexivity.
  - rewrite bool_decide_eq_false_2 by (intros [x Hx]; discriminate).
    reflexivity.
Qed.

Lemma session_run_cons server (e : session_event K) trace :
  session_run server (e :: trace) =
  (fst (session_run (fst (session_step server e)) trace),
   snd (session_step server e) ++ snd (session_run (fst (session_step server e)) trace)).
Proof.
  cbn [session_run]. destruct (session_step server e) as [server' out].
  cbn [fst snd]. destruct (session_run server' trace) as [server'' out']. reflexivity.
Qed.







End CorrelatorFacts.


(** ** The line listener *)

Section ManagerFacts.
Context `{Runtime}.

Lemma with_heap_same (m : Manager) : with_heap (heap m) m = m.
Proof. destruct m; reflexivity. Qed.

(** The listener on a line that parses, by the id the message carries. *)
Lemma onLine_parsed {K} (server : MCPServer K) (line : string) (message : json) :
  JSON_parse line = Some message ->
  onLine server line =
  match response_id message with
  | Some key =>
      match pendingRequests server !! key with
      | Some pending =>
          ({| tools := tools server;
              nextId := nextId server;
              pendingRequests := delete key (pendingRequests server);
              command := command server;
              written := written server |},
           Some {| s_id := key; s_waiter := pending; s_reply := response_outcome message |})
      | None => (server, None)
      end
  | None => (server, None)
  end.
Proof.
  intros Hparse. unfold onLine. rewrite Hparse.
  pose proof (session_step_recv server message) as Hstep.
  unfold session_step in Hstep.
  destruct (handleMessage server message) as [[server' [s|]]|e];
    destruct (response_id message) as [key|];
    try destruct (pendingRequests server !! key) as [pending|];
    congruence.
Qed.

Lemma read_lines_drop {K} (server : MCPServer K) (before after : list string)
    (line : string) :
  (forall server' : MCPServer K, onLine server' line = (server', None)) ->
  read_lines server (before ++ line :: after) = read_lines server (before ++ after).
Proof.
  intros Hdrop. revert server.
  induction before as [|l before IH]; intros server; cbn [app read_lines].
  - rewrite Hdrop. destruct (read_lines server after); reflexivity.
  - destruct (onLine server l) as [server' released]. rewrite IH. reflexivity.
Qed.

(** C7: a line that is not valid JSON is dropped by the line listener.
    No pending request is settled, the session and the manager are left
    as they were, and the lines and events that follow, in the same
    chunk of output or later, are handled as if the line had never
    come. *)
Theorem malformed_line_is_dropped (m : Manager) (addr : nat) (line : string)
    (before after : list string) (later : list event) :
  JSON_parse line = None ->
  (forall K (server : MCPServer K), onLine server line = (server, None)) /\
  step m (Line addr line) = m /\
  step m (Lines addr (before ++ line :: after)) = step m (Lines addr (before ++ after)) /\
  run (Line addr line :: later) m = run later m.
Proof.
  intros Hparse.
  assert (forall K (server : MCPServer K), onLine server line = (server, None)) as Hdrop.
  { intros K server. unfold onLine. rewrite Hparse. reflexivity. }
  assert (step m (Line addr line) = m) as Hstep.
  { cbn [step]. unfold on_line.
    destruct (heap m !! addr) as [server|] eqn:Hserver; [|reflexivity].
    rewrite Hdrop. rewrite list_insert_id by exact Hserver. apply with_heap_same. }
  split; [exact Hdrop|]. split; [exact Hstep|]. split.
  - cbn [step]. unfold on_lines.
    destruct (heap m !! addr) as [server|]; [|reflexivity].
    rewrite (read_lines_drop server before after line (Hdrop cont)). reflexivity.
  - unfold run. cbn [fold_left]. rewrite Hstep. reflexivity.
Qed.

End ManagerFacts.

(** ** The handshake of [startServer] *)

Lemma lookup_snoc {A} (l : list A) (x : A) : (l ++ [x]) !! length l = Some x.
Proof. apply list_lookup_middle. reflexivity. Qed.

Lemma insert_snoc {A} (l : list A) (x y : A) : <[length l := y]> (l ++ [x]) = l ++ [y].
Proof. induction l as [|a l IH]; simpl; [reflexivity | f_equal; exact IH]. Qed.

Lemma registry_get_set (cmd cmd' : string) (addr : nat) (reg : list (string * nat)) :
  registry_get cmd' (registry_set cmd addr reg) =
  if String.eqb cmd cmd' then Some addr else registry_get cmd' reg.
Proof.
  unfold registry_get. induction reg as [|[c a] reg IH]; simpl.
  - rewrite lookup_field_cons. reflexivity.
  - destruct (String.eqb c cmd) eqn:Hc; rewrite !lookup_field_cons.
    + apply String.eqb_eq in Hc. subst c. destruct (String.eqb cmd cmd'); reflexivity.
    + rewrite IH. destruct (String.eqb c cmd') eqn:Hcc; [|reflexivity].
      apply String.eqb_eq in Hcc. subst c. rewrite String.eqb_sym, Hc. reflexivity.
Qed.

Lemma registry_get_delete (cmd cmd' : string) (reg : list (string * nat)) :
  registry_get cmd' (registry_delete cmd reg) =
  if String.eqb cmd cmd' then None else registry_get cmd' reg.
Proof.
  unfold registry_get, registry_delete. induction reg as [|[c a] reg IH]; simpl.
  - destruct (String.eqb cmd cmd'); reflexivity.
  - destruct (String.eqb c cmd) eqn:Hc; simpl; rewrite !lookup_field_cons.
    + apply String.eqb_eq in Hc. subst c. rewrite IH.
      destruct (String.eqb cmd cmd'); reflexivity.
    + rewrite IH. destruct (String.eqb c cmd') eqn:Hcc; [|reflexivity].
      apply String.eqb_eq in Hcc. subst c. rewrite String.eqb_sym, Hc. reflexivity.
Qed.


Section Handshake.
Context `{Runtime}.

(** A line that answers a pending request releases its caller. *)
Lemma on_line_released (m : Manager) (addr : nat) (server : MCPServer cont)
    (line : string) (message : json) (key : Z) (k : cont) :
  heap m !! addr = Some server ->
  JSON_parse line = Some message ->
  response_id message = Some key ->
  pendingRequests server !! key = Some k ->
  on_line addr line m =
  resume k (response_outcome message)
    (with_heap
       (<[addr := {| tools := tools server;
                     nextId := nextId server;
                     pendingRequests := delete key (pendingRequests server);
                     command := command server;
                     written := written server |}]> (heap m)) m).
Proof.
  intros Hserver Hparse Hid Hpending. unfold on_line. rewrite Hserver.
  rewrite (onLine_parsed _ _ _ Hparse), Hid, Hpending. reflexivity.
Qed.

(** The manager after [startServer cmd] on a command that has no
    session, and after the answer to [initialize] has come. *)
Lemma startServer_fresh (m : Manager) (cmd : string) :
  registry_get cmd (servers m) = None ->
  spawn (program cmd) (arguments cmd) = Spawned ->
  startServer cmd m =
  {| servers := registry_set cmd (length (heap m)) (servers m);
     heap := heap m ++
       [sendRequest (new_server cmd) "initialize" (Some initialize_params)
          (AwaitInitialize (length (calls m)) (length (heap m)))];
     spawned := spawned m ++ [(program cmd, arguments cmd)];
       killed := killed m;
     calls := calls m ++ [None] |}.
Proof. intros Hnew Hspawn. unfold startServer. rewrite Hnew, Hspawn. reflexivity. Qed.

Lemma initialize_answered (m : Manager) (cmd line : string) (message : json) :
  registry_get cmd (servers m) = None ->
  spawn (program cmd) (arguments cmd) = Spawned ->
  JSON_parse line = Some message ->
  response_id message = Some 1%Z ->
  on_line (length (heap m)) line (startServer cmd m) =
  resume (AwaitInitialize (length (calls m)) (length (heap m)))
    (response_outcome message)
    {| servers := registry_set cmd (length (heap m)) (servers m);
       heap := heap m ++
         [{| tools := JArr [];
             nextId := 2;
             pendingRequests := ∅;
             command := cmd;
             written := [{| req_id := 1; req_method := "initialize";
                            req_params := Some initialize_params |}] |}];
       spawned := spawned m ++ [(program cmd, arguments cmd)];
       killed := killed m;
       calls := calls m ++ [None] |}.
Proof.
  intros Hnew Hspawn Hparse Hid. rewrite (startServer_fresh _ _ Hnew Hspawn).
  erewrite on_line_released;
    [|cbn [heap]; apply lookup_snoc|exact Hparse|exact Hid|
      cbn [sendRequest new_server pendingRequests nextId]; apply lookup_insert_eq].
  f_equal. unfold with_heap.
  cbn [sendRequest new_server pendingRequests nextId tools command written
       servers heap spawned killed calls app].
  rewrite insert_snoc, delete_insert_eq, delete_empty. reflexivity.
Qed.

End Handshake.

Section HandshakeOutcomes.
Context `{Runtime}.



End HandshakeOutcomes.

(** ** The handler of a catalog entry *)

Section HandlerFacts.
Context `{Runtime}.









End HandlerFacts.

(** ** The registry *)

Lemma registry_get_None_keys (cmd : string) (reg : list (string * nat)) :
  registry_get cmd reg = None -> ~ In cmd (map fst reg).
Proof.
  intros Hnone Hin. apply in_map_iff in Hin as ([c a] & Hc & Hin). simpl in Hc. subst c.
  destruct (In_lookup_field _ _ _ Hin) as [x Hx].
  unfold registry_get in Hnone. congruence.
Qed.

Lemma registry_set_absent (cmd : string) (addr : nat) (reg : list (string * nat)) :
  registry_get cmd reg = None -> registry_set cmd addr reg = reg ++ [(cmd, addr)].
Proof.
  unfold registry_get. induction reg as [|[c a] reg IH]; [reflexivity|].
  rewrite lookup_field_cons. simpl. destruct (String.eqb c cmd); [discriminate|].
  intros Hnone. rewrite (IH Hnone). reflexivity.
Qed.

Lemma registry_delete_keys (cmd : string) (reg : list (string * nat)) :
  NoDup (map fst reg) -> NoDup (map fst (registry_delete cmd reg)).
Proof.
  unfold registry_delete. induction reg as [|[c a] reg IH]; simpl; [auto|].
  intros Hnodup. apply NoDup_cons in Hnodup as [Hnotin Hrest].
  destruct (negb (String.eqb c cmd)); [|exact (IH Hrest)].
  simpl. apply NoDup_cons. split; [|exact (IH Hrest)].
  intros Hin. apply Hnotin. apply list_elem_of_In. apply list_elem_of_In in Hin.
  apply in_map_iff in Hin as (p & Hp & Hin). apply filter_In in Hin as [Hin _].
  apply in_map_iff. eauto.
Qed.

Section RegistryFacts.
Context `{Runtime}.

Lemma registry_ok_initial : registry_ok initial.
Proof. split; [constructor | intros cmd addr Hget; discriminate]. Qed.

(** An object of the heap is replaced by one for the same command. *)
Lemma registry_ok_insert (m : Manager) (addr : nat) (server server' : MCPServer cont) :
  heap m !! addr = Some server ->
  command server' = command server ->
  registry_ok m ->
  registry_ok (with_heap (<[addr := server']> (heap m)) m).
Proof.
  intros Hserver Hcommand [Hnodup Hheap]. split; [exact Hnodup|].
  intros cmd a Hget. cbn [with_heap heap servers] in *.
  specialize (Hheap cmd a Hget).
  destruct (decide (addr = a)) as [<-|Hne].
  - rewrite list_lookup_insert_eq by (eapply lookup_lt_Some, Hserver).
    rewrite Hserver in Hheap. simpl in *. congruence.
  - rewrite list_lookup_insert_ne by exact Hne. exact Hheap.
Qed.

Lemma registry_ok_calls (m : Manager) (cs : list (option settled)) :
  registry_ok m -> registry_ok (with_calls cs m).
Proof. intros Hok. exact Hok. Qed.

Lemma registry_ok_delete (m : Manager) (cmd : string) (ks : list nat) :
  registry_ok m ->
  registry_ok {| servers := registry_delete cmd (servers m); heap := heap m;
                 spawned := spawned m; killed := ks; calls := calls m |}.
Proof.
  intros [Hnodup Hheap]. split.
  - apply registry_delete_keys. exact Hnodup.
  - intros c a. cbn [servers heap]. rewrite registry_get_delete.
    destruct (String.eqb cmd c); [discriminate | apply Hheap].
Qed.

Lemma startServer_ok (cmd : string) (m : Manager) :
  registry_ok m -> registry_ok (startServer cmd m).
Proof.
  intros [Hnodup Hheap]. unfold startServer.
  destruct (registry_get cmd (servers m)) as [addr|] eqn:Hget; [split; assumption|].
  destruct (spawn (program cmd) (arguments cmd)); [|split; assumption..].
  split.
  - unfold getActiveServers. cbn [servers].
    rewrite (registry_set_absent _ _ _ Hget), map_app. simpl.
    apply NoDup_app. split; [exact Hnodup|]. split.
    + intros c Hc Hin. apply list_elem_of_In in Hc, Hin.
      destruct Hin as [<-|[]]. exact (registry_get_None_keys _ _ Hget Hc).
    + apply NoDup_singleton.
  - intros c a. cbn [servers heap]. rewrite registry_get_set.
    destruct (String.eqb cmd c) eqn:Hc.
    + apply String.eqb_eq in Hc. subst c. intros [= <-].
      rewrite lookup_snoc. reflexivity.
    + intros Hold. specialize (Hheap c a Hold).
      destruct (heap m !! a) as [s|] eqn:Hs; [|discriminate].
      rewrite (lookup_app_l_Some _ _ _ _ Hs). exact Hheap.
Qed.

Lemma stop_ok (cmd : string) (m : Manager) : registry_ok m -> registry_ok (stop cmd m).
Proof.
  intros Hok. unfold stop.
  destruct (registry_get cmd (servers m)); [|exact Hok].
  apply registry_ok_delete. exact Hok.
Qed.

Lemma onLine_command {K} (server : MCPServer K) (line : string) :
  command (fst (onLine server line)) = command server.
Proof.
  destruct (JSON_parse line) as [message|] eqn:Hparse.
  - rewrite (onLine_parsed _ _ _ Hparse).
    destruct (response_id message) as [key|]; [|reflexivity].
    destruct (pendingRequests server !! key); reflexivity.
  - unfold onLine. rewrite Hparse. reflexivity.
Qed.

Lemma read_lines_command {K} (server : MCPServer K) (lines : list string) :
  command (fst (read_lines server lines)) = command server.
Proof.
  revert server. induction lines as [|line lines IH]; intros server; [reflexivity|].
  cbn [read_lines]. pose proof (onLine_command server line) as Hline.
  destruct (onLine server line) as [server' released]. simpl in Hline.
  specialize (IH server'). destruct (read_lines server' lines) as [server'' later].
  simpl in *. congruence.
Qed.

(** A chunk of one line is that line. *)
Lemma on_lines_one (addr : nat) (line : string) (m : Manager) :
  on_lines addr [line] m = on_line addr line m.
Proof.
  unfold on_lines, on_line. destruct (heap m !! addr) as [server|]; [|reflexivity].
  cbn [read_lines]. destruct (onLine server line) as [server' [s|]]; reflexivity.
Qed.

Lemma resume_ok (k : cont) (r : reply) (m : Manager) :
  registry_ok m -> registry_ok (resume k r m).
Proof.
  intros Hok. destruct k as [call addr|call addr|call]; destruct r as [res|e]; cbn [resume].
  - destruct (heap m !! addr) as [server|] eqn:Hserver; [|exact Hok].
    eapply registry_ok_insert; [exact Hserver|reflexivity|exact Hok].
  - exact Hok.
  - apply registry_ok_calls. unfold store_tools.
    destruct (heap m !! addr) as [server|] eqn:Hserver; [|exact Hok].
    destruct (get_prop res "tools") as [found|e]; [|exact Hok].
    eapply registry_ok_insert; [exact Hserver|reflexivity|exact Hok].
  - exact Hok.
  - destruct (handler_result res); exact Hok.
  - exact Hok.
Qed.

Lemma step_ok (m : Manager) (e : event) : registry_ok m -> registry_ok (step m e).
Proof.
  intros Hok. destruct e as [cmd|cmd| |addr tool params|addr line|addr lines|addr|addr];
    cbn [step].
  - apply startServer_ok. exact Hok.
  - apply registry_ok_calls, stop_ok. exact Hok.
  - apply registry_ok_calls. unfold stopAllServers.
    generalize (getActiveServers m). intros cmds. revert m Hok.
    induction cmds as [|cmd cmds IH]; intros m Hok; [exact Hok|].
    simpl. apply IH, stop_ok. exact Hok.
  - unfold call_handler. destruct (heap m !! addr) as [server|] eqn:Hserver; [|exact Hok].
    destruct (handler_request tool params); [|exact Hok].
    apply registry_ok_calls.
    eapply registry_ok_insert; [exact Hserver|reflexivity|exact Hok].
  - unfold on_line. destruct (heap m !! addr) as [server|] eqn:Hserver; [|exact Hok].
    pose proof (onLine_command server line) as Hcommand.
    destruct (onLine server line) as [server' released]. simpl in Hcommand.
    assert (registry_ok (with_heap (<[addr := server']> (heap m)) m)) as Hok'
      by (eapply registry_ok_insert; eassumption).
    destruct released; [apply resume_ok|]; exact Hok'.
  - unfold on_lines. destruct (heap m !! addr) as [server|] eqn:Hserver; [|exact Hok].
    pose proof (read_lines_command server lines) as Hcommand.
    destruct (read_lines server lines) as [server' released]. simpl in Hcommand.
    assert (registry_ok (with_heap (<[addr := server']> (heap m)) m)) as Hok'
      by (eapply registry_ok_insert; eassumption).
    revert Hok'. generalize (with_heap (<[addr := server']> (heap m)) m).
    induction released as [|s released IH]; intros m' Hok'; [exact Hok'|].
    simpl. apply IH, resume_ok. exact Hok'.
  - unfold process_gone. destruct (heap m !! addr); [|exact Hok].
    apply registry_ok_delete. exact Hok.
  - unfold process_gone. destruct (heap m !! addr); [|exact Hok].
    apply registry_ok_delete. exact Hok.
Qed.

Lemma run_ok (events : list event) (m : Manager) :
  registry_ok m -> registry_ok (run events m).
Proof.
  revert m. induction events as [|e events IH]; intros m Hok; [exact Hok|].
  apply IH, step_ok. exact Hok.
Qed.

Lemma run_app (events events' : list event) (m : Manager) :
  run (events ++ events') m = run events' (run events m).
Proof. apply fold_left_app. Qed.





End RegistryFacts.

(** ** The tool catalog *)



Section CatalogFacts.
Context `{Runtime}.




End CatalogFacts.

(** * The statements on the sample provider *)

Section Examples.
Import Provider.
#[local] Existing Instance Sample.runtime.





(** The sessions answer out of order, and each caller gets its own
    answer. *)
Example answers_out_of_order :
  snd (session_run (new_server "srv")
         [Send "tools/call" None "first"; Send "tools/call" None "second";
          Recv (JObj [("id", JNum 2); ("result", JStr "for the second")]);
          Recv (JObj [("id", JNum 7); ("result", JStr "for nobody")]);
          Recv (JObj [("id", JNum 1); ("error", JObj [("message", JStr "no")])]);
          Recv (JObj [("id", JNum 1); ("result", JStr "too late")])])
  = [{| s_id := 2; s_waiter := "second";
        s_reply := Resolve (Some (JStr "for the second")) |};
     {| s_id := 1; s_waiter := "first";
        s_reply := Reject (PlainError (Some (JStr "no"))) |}].
Proof. reflexivity. Qed.



Example text_blocks_are_joined :
  calls (run (ready "alpha" 0 ++
              [CallHandler 0 search_tool (Some search_params); Line 0 call_result_text])
           initial) !! 1
  = Some (Some (Fulfilled (RString ("one" ++ newline ++ "two")))).
Proof. reflexivity. Qed.


Lemma malformed_line_witness :
  (forall K (server : MCPServer K), onLine server "not json" = (server, None)) /\
  step (run (ready "alpha" 0) initial) (Line 0 "not json") = run (ready "alpha" 0) initial /\
  step (run [CallStartServer "alpha"] initial)
    (Lines 0 ([initialize_result] ++ "not json" :: [tools_list_result]))
  = step (run [CallStartServer "alpha"] initial)
      (Lines 0 ([initialize_result] ++ [tools_list_result])) /\
  run (Line 0 "not json" ::
       [CallHandler 0 search_tool (Some search_params); Line 0 call_result_text])
    (run (ready "alpha" 0) initial)
  = run [CallHandler 0 search_tool (Some search_params); Line 0 call_result_text]
      (run (ready "alpha" 0) initial).
Proof.
  split; [|split; [|split]].
  - apply (malformed_line_is_dropped initial 0 "not json" [] [] []). reflexivity.
  - apply (malformed_line_is_dropped (run (ready "alpha" 0) initial) 0 "not json" [] [] []).
    reflexivity.
  - apply (malformed_line_is_dropped (run [CallStartServer "alpha"] initial) 0 "not json"
             [initialize_result] [tools_list_result] []).
    reflexivity.
  - apply (malformed_line_is_dropped (run (ready "alpha" 0) initial) 0 "not json" [] []
             [CallHandler 0 search_tool (Some search_params); Line 0 call_result_text]).
    reflexivity.
Defined.



End Examples.

(** * Further properties

    Properties of the code beyond the statements above. *)
(** ** Stopping sessions *)
(** X1: [stopServer] removes the entry of its command and no other,
    kills the process of the session it found and creates or spawns
    nothing; for a command that is not registered it changes nothing
    but to return, and stopping twice is stopping once. *)
Theorem stopServer_removes_only_its_command (m : Manager) (cmd : string) :
  registry_get cmd (servers (stopServer cmd m)) = None /\
  (forall c, c <> cmd ->
     registry_get c (servers (stopServer cmd m)) = registry_get c (servers m)) /\
  heap (stopServer cmd m) = heap m /\
  spawned (stopServer cmd m) = spawned m /\
  killed (stopServer cmd m) =
    killed m ++ match registry_get cmd (servers m) with
                | Some addr => [addr]
                | None => []
                end /\
  calls (stopServer cmd m) = calls m ++ [Some (Fulfilled RVoid)] /\
  (registry_get cmd (servers m) = None -> stop cmd m = m) /\
  stop cmd (stopServer cmd m) = stopServer cmd m.
Proof.
  assert (forall m', registry_get cmd (servers m') = None -> stop cmd m' = m') as Hnoop.
  { intros m' Hnone. unfold stop. rewrite Hnone. reflexivity. }
  assert (registry_get cmd (servers (stop cmd m)) = None) as Hgone.
  { unfold stop. destruct (registry_get cmd (servers m)) eqn:Hget; [|exact Hget].
    cbn [servers]. rewrite registry_get_delete, String.eqb_refl. reflexivity. }
  split; [exact Hgone|]. split.
  { intros c Hc. unfold stopServer, returned, with_calls, stop. cbn [servers].
    destruct (registry_get cmd (servers m)); [|reflexivity].
    cbn [servers]. rewrite registry_get_delete.
    destruct (String.eqb_spec cmd c); [congruence | reflexivity]. }
  split; [unfold stopServer, returned, with_calls, stop;
          destruct (registry_get cmd (servers m)); reflexivity|].
  split; [unfold stopServer, returned, with_calls, stop;
          destruct (registry_get cmd (servers m)); reflexivity|].
  split.
  { unfold stopServer, returned, with_calls, stop. cbn [killed].
    destruct (registry_get cmd (servers m)); [reflexivity|].
    rewrite app_nil_r. reflexivity. }
  split; [unfold stopServer, returned, with_calls, stop;
          destruct (registry_get cmd (servers m)); reflexivity|].
  split; [exact (Hnoop m)|]. apply Hnoop. exact Hgone.
Qed.

Lemma registry_delete_head (cmd : string) (addr : nat) (reg : list (string * nat)) :
  NoDup (cmd :: map fst reg) -> registry_delete cmd ((cmd, addr) :: reg) = reg.
Proof.
  intros Hnodup. apply NoDup_cons in Hnodup as [Hnotin _].
  unfold registry_delete. simpl. rewrite String.eqb_refl. simpl.
  induction reg as [|[c a] reg IH]; [reflexivity|].
  simpl. destruct (String.eqb_spec c cmd) as [->|Hne].
  - exfalso. apply Hnotin. simpl. left.
  - simpl. f_equal. apply IH. intros Hin. apply Hnotin. simpl. right. exact Hin.
Qed.

Lemma stop_all_fold (reg : list (string * nat)) :
  forall m, servers m = reg -> NoDup (map fst reg) ->
    fold_left (fun m' cmd => stop cmd m') (map fst reg) m =
    {| servers := []; heap := heap m; spawned := spawned m;
       killed := killed m ++ map snd reg; calls := calls m |}.
Proof.
  induction reg as [|[cmd addr] reg IH]; intros m Hreg Hnodup.
  - simpl. rewrite app_nil_r. destruct m; simpl in *; subst; reflexivity.
  - cbn [map fst fold_left]. unfold stop at 2. rewrite Hreg.
    unfold registry_get. rewrite lookup_field_cons, String.eqb_refl.
    rewrite (registry_delete_head _ _ _ Hnodup).
    rewrite IH; [|reflexivity|apply NoDup_cons in Hnodup as [_ Hrest]; exact Hrest].
    cbn [heap spawned killed calls map snd]. rewrite <- app_assoc. reflexivity.
Qed.

Section StoppingAll.
Context `{Runtime}.

(** X2: from any state the manager can reach, [stopAllServers] empties
    the registry and kills the process of every session that was
    registered, each once, in registration order; it creates and spawns
    nothing. *)
Theorem stopAllServers_empties_the_registry (events : list event) :
  let m := run events initial in
  servers (stopAllServers m) = [] /\
  getActiveServers (stopAllServers m) = [] /\
  killed (stopAllServers m) = killed m ++ map snd (servers m) /\
  heap (stopAllServers m) = heap m /\
  spawned (stopAllServers m) = spawned m /\
  calls (stopAllServers m) = calls m ++ [Some (Fulfilled RVoid)].
Proof.
  intros m.
  assert (registry_ok m) as [Hnodup _] by (apply run_ok, registry_ok_initial).
  pose proof (stop_all_fold (servers m) m eq_refl Hnodup) as Hfold.
  unfold stopAllServers, getActiveServers. rewrite Hfold.
  repeat split.
Qed.

End StoppingAll.

Section Restart.
Context `{Runtime}.

(** X3: the [exit] and [error] listeners delete by command.  When a
    command is stopped and started again, and the process that was
    stopped reports its exit (or an error) afterwards, the new session
    leaves the registry, and its process is not killed. *)
Theorem late_exit_unregisters_the_successor (events : list event) (cmd : string)
    (old : nat) :
  let m := run events initial in
  registry_get cmd (servers m) = Some old ->
  spawn (program cmd) (arguments cmd) = Spawned ->
  let restarted := run [CallStopServer cmd; CallStartServer cmd] m in
  let after := step restarted (ProcessExit old) in
  registry_get cmd (servers restarted) = Some (length (heap m)) /\
  length (heap m) <> old /\
  registry_get cmd (servers after) = None /\
  killed after = killed m ++ [old] /\
  step restarted (ProcessError old) = after.
Proof.
  intros m Hget Hspawn restarted after.
  assert (registry_ok m) as Hok by (apply run_ok, registry_ok_initial).
  destruct Hok as [_ Hheap]. specialize (Hheap cmd old Hget).
  destruct (heap m !! old) as [server|] eqn:Hserver; [|discriminate].
  injection Hheap as Hcommand.
  assert (old < length (heap m)) as Hlt by (eapply lookup_lt_Some; exact Hserver).
  assert (restarted =
          {| servers := registry_set cmd (length (heap m))
                          (registry_delete cmd (servers m));
             heap := heap m ++
               [sendRequest (new_server cmd) "initialize" (Some initialize_params)
                  (AwaitInitialize (S (length (calls m))) (length (heap m)))];
             spawned := spawned m ++ [(program cmd, arguments cmd)];
             killed := killed m ++ [old];
             calls := (calls m ++ [Some (Fulfilled RVoid)]) ++ [None] |}) as Hrestarted.
  { subst restarted. cbn [run fold_left step]. unfold stopServer, stop. rewrite Hget.
    unfold returned, with_calls. cbn [calls servers heap spawned killed].
    rewrite startServer_fresh; cbn [servers heap calls spawned killed].
    - rewrite length_app, Nat.add_1_r. reflexivity.
    - rewrite registry_get_delete, String.eqb_refl. reflexivity.
    - exact Hspawn. }
  assert (after =
          {| servers := registry_delete cmd (servers restarted);
             heap := heap restarted; spawned := spawned restarted;
             killed := killed restarted; calls := calls restarted |}) as Hafter.
  { subst after. cbn [step]. unfold process_gone. rewrite Hrestarted at 1. cbn [heap].
    rewrite lookup_app_l by exact Hlt. rewrite Hserver, Hcommand. reflexivity. }
  split; [|split; [|split; [|split]]].
  - rewrite Hrestarted. cbn [servers]. rewrite registry_get_set, String.eqb_refl.
    reflexivity.
  - lia.
  - rewrite Hafter. cbn [servers]. rewrite registry_get_delete, String.eqb_refl.
    reflexivity.
  - rewrite Hafter, Hrestarted. reflexivity.
  - reflexivity.
Qed.

End Restart.

(** ** The ids of the requests *)

Lemma ids_in_order_step {K} (server : MCPServer K) (e : session_event K) :
  ids_in_order server -> ids_in_order (fst (session_step server e)).
Proof.
  intros (Hnext & Hids & Hpending). destruct e as [method params waiter|message].
  - cbn [session_step fst]. unfold sendRequest, ids_in_order.
    cbn [nextId written pendingRequests].
    rewrite length_app, map_app, Hids. cbn [length map req_id].
    rewrite Nat.add_1_r, seqZ_S, Hnext.
    split; [lia|]. split; [reflexivity|].
    intros id [k Hk]. apply in_or_app.
    destruct (decide (nextId server = id)) as [<-|Hne].
    + right. left. lia.
    + left. rewrite lookup_insert_ne in Hk by (rewrite <- Hnext; exact Hne).
      rewrite <- Hids. apply Hpending. eauto.
  - rewrite session_step_recv.
    destruct (response_id message) as [key|]; [|split; [|split]; assumption].
    destruct (pendingRequests server !! key) eqn:Hkey; [|split; [|split]; assumption].
    cbn [fst]. unfold ids_in_order. cbn [nextId written pendingRequests].
    split; [exact Hnext|]. split; [exact Hids|].
    intros id [w Hk]. apply Hpending.
    destruct (decide (key = id)) as [<-|Hne].
    + rewrite lookup_delete_eq in Hk. discriminate.
    + rewrite lookup_delete_ne in Hk by exact Hne. eauto.
Qed.

Lemma ids_in_order_run {K} (trace : list (session_event K)) :
  forall server, ids_in_order server -> ids_in_order (fst (session_run server trace)).
Proof.
  induction trace as [|e trace IH]; intros server Hs; [exact Hs|].
  rewrite session_run_cons. cbn [fst]. apply IH, ids_in_order_step, Hs.
Qed.

(** X4: whatever a session sends and receives, its requests carry the
    ids 1, 2, 3, ... in the order they were written, so no two requests
    of a session share an id; [nextId] is one more than the number of
    requests written, and only ids that were written are pending. *)
Theorem request_ids_count_up {K} (cmd : string) (trace : list (session_event K)) :
  let server := fst (session_run (new_server cmd) trace) in
  nextId server = (1 + Z.of_nat (length (written server)))%Z /\
  map req_id (written server) = seqZ 1 (Z.of_nat (length (written server))) /\
  NoDup (map req_id (written server)) /\
  (forall id, is_Some (pendingRequests server !! id) ->
     In id (map req_id (written server))).
Proof.
  intros server.
  assert (ids_in_order server) as (Hnext & Hids & Hpending).
  { apply ids_in_order_run. split; [reflexivity|]. split; [reflexivity|].
    intros id [k Hk]. simpl in Hk. rewrite lookup_empty in Hk. discriminate. }
  split; [exact Hnext|]. split; [exact Hids|]. split; [|exact Hpending].
  rewrite Hids. apply NoDup_seqZ.
Qed.

(** ** More on the handshake *)

Section HandshakeMore.
Context `{Runtime}.

(** X5: [startServer] writes the [initialize] request at once and
    nothing else; [tools/list], with id 2 and no parameters, is written
    when [initialize] is answered with a result, and never when it is
    answered with an error. *)
Theorem tools_list_waits_for_initialize (m : Manager) (cmd : string) :
  registry_get cmd (servers m) = None ->
  spawn (program cmd) (arguments cmd) = Spawned ->
  let addr := length (heap m) in
  written <$> heap (run [CallStartServer cmd] m) !! addr =
    Some [{| req_id := 1; req_method := "initialize";
             req_params := Some initialize_params |}] /\
  (forall line message e,
     JSON_parse line = Some message ->
     response_id message = Some 1%Z ->
     response_outcome message = Reject e ->
     written <$> heap (run [CallStartServer cmd; Line addr line] m) !! addr =
       Some [{| req_id := 1; req_method := "initialize";
                req_params := Some initialize_params |}]) /\
  (forall line message r,
     JSON_parse line = Some message ->
     response_id message = Some 1%Z ->
     response_outcome message = Resolve r ->
     written <$> heap (run [CallStartServer cmd; Line addr line] m) !! addr =
       Some [{| req_id := 1; req_method := "initialize";
                req_params := Some initialize_params |};
             {| req_id := 2; req_method := "tools/list"; req_params := None |}]).
Proof.
  intros Hnew Hspawn addr. subst addr. split; [|split].
  - unfold run. cbn [fold_left step]. rewrite (startServer_fresh _ _ Hnew Hspawn).
    cbn [heap]. rewrite lookup_snoc. reflexivity.
  - intros line message e Hparse Hid Hout. unfold run. cbn [fold_left step].
    rewrite (initialize_answered _ _ _ _ Hnew Hspawn Hparse Hid), Hout.
    cbn [resume]. unfold settle, with_calls. cbn [heap].
    rewrite lookup_snoc. reflexivity.
  - intros line message r Hparse Hid Hout. unfold run. cbn [fold_left step].
    rewrite (initialize_answered _ _ _ _ Hnew Hspawn Hparse Hid), Hout.
    cbn [resume heap]. rewrite lookup_snoc. unfold with_heap. cbn [heap].
    rewrite insert_snoc, lookup_snoc. reflexivity.
Qed.

(** X6: when [initialize] and [tools/list] are both answered with
    results, [startServer] fulfils, the command is registered, and the
    session holds [result.tools] (the empty list when it is missing or
    falsy), has written exactly the two requests and has none
    pending. *)
Theorem handshake_stores_the_listed_tools (m : Manager) (cmd : string)
    (line1 line2 : string) (message1 message2 : json)
    (r res : option json) (found : option json) :
  registry_get cmd (servers m) = None ->
  spawn (program cmd) (arguments cmd) = Spawned ->
  JSON_parse line1 = Some message1 ->
  response_id message1 = Some 1%Z ->
  response_outcome message1 = Resolve r ->
  JSON_parse line2 = Some message2 ->
  response_id message2 = Some 2%Z ->
  response_outcome message2 = Resolve res ->
  get_prop res "tools" = Ok found ->
  let addr := length (heap m) in
  let call := length (calls m) in
  let ready := run [CallStartServer cmd; Line addr line1; Line addr line2] m in
  calls ready !! call = Some (Some (Fulfilled RVoid)) /\
  registry_get cmd (servers ready) = Some addr /\
  heap ready !! addr =
    Some {| tools := listed found;
            nextId := 3;
            pendingRequests := ∅;
            command := cmd;
            written := [{| req_id := 1; req_method := "initialize";
                           req_params := Some initialize_params |};
                        {| req_id := 2; req_method := "tools/list";
                           req_params := None |}] |}.
Proof.
  intros Hnew Hspawn Hparse1 Hid1 Hout1 Hparse2 Hid2 Hout2 Hfound addr call ready.
  subst ready call addr.
  assert (run [CallStartServer cmd; Line (length (heap m)) line1;
               Line (length (heap m)) line2] m =
    {| servers := registry_set cmd (length (heap m)) (servers m);
       heap := heap m ++
         [{| tools := listed found;
             nextId := 3;
             pendingRequests := ∅;
             command := cmd;
             written := [{| req_id := 1; req_method := "initialize";
                            req_params := Some initialize_params |};
                         {| req_id := 2; req_method := "tools/list";
                            req_params := None |}] |}];
       spawned := spawned m ++ [(program cmd, arguments cmd)];
       killed := killed m;
       calls := calls m ++ [Some (Fulfilled RVoid)] |}) as ->.
  { unfold run. cbn [fold_left step].
    rewrite (initialize_answered _ _ _ _ Hnew Hspawn Hparse1 Hid1), Hout1.
    cbn [resume heap]. rewrite lookup_snoc. unfold with_heap.
    cbn [servers heap spawned killed calls]. rewrite insert_snoc.
    erewrite on_line_released;
      [|cbn [heap]; apply lookup_snoc|exact Hparse2|exact Hid2|
        cbn [sendRequest pendingRequests nextId]; apply lookup_insert_eq].
    rewrite Hout2. cbn [resume]. unfold settle, with_calls, store_tools, with_heap.
    cbn [sendRequest pendingRequests nextId tools command
         written servers heap spawned killed calls app].
    rewrite insert_snoc, lookup_snoc, Hfound.
    cbn [sendRequest pendingRequests nextId tools command
         written servers heap spawned killed calls app].
    rewrite !insert_snoc, delete_insert_eq, delete_empty. reflexivity. }
  cbn [calls servers heap].
  split; [apply lookup_snoc|]. split.
  - rewrite registry_get_set, String.eqb_refl. reflexivity.
  - apply lookup_snoc.
Qed.

End HandshakeMore.

(** ** More on the handlers *)

Section ToolCalls.
Context `{Runtime}.



End ToolCalls.

(** ** More on the catalog *)


Lemma mapM_fails {A B} (f : A -> result B) (l : list A) (x : A) :
  In x l -> is_ok (f x) = false -> is_ok (mapM f l) = false.
Proof.
  induction l as [|a l IH]; [intros []|].
  intros [->|Hin] Hx; cbn [mapM].
  - destruct (f x); [discriminate | reflexivity].
  - destruct (f a); [|reflexivity]. cbn [mbind result_bind].
    specialize (IH Hin Hx). destruct (mapM f l); [discriminate | reflexivity].
Qed.

Section CatalogMore.
Context `{Runtime}.



(** X10: one registered session whose [tools] cannot be iterated, or
    hold a [null], makes [getAllTools] throw: no catalog is returned,
    not even for the other sessions. *)
Theorem one_bad_session_fails_the_catalog (m : Manager) (cmd : string) (addr : nat)
    (server : MCPServer cont) :
  In (cmd, addr) (servers m) ->
  heap m !! addr = Some server ->
  is_ok (iterate (tools server)) = false \/
  In JNull (listed_tools m addr) ->
  is_ok (getAllTools m) = false.
Proof.
  intros Hreg Hserver Hbad. unfold getAllTools.
  assert (is_ok (mapM (server_tools m) (servers m)) = false) as Hfail.
  { apply (mapM_fails _ _ _ Hreg). unfold server_tools. cbn [snd]. rewrite Hserver.
    destruct Hbad as [Hiter|Hnull].
    - destruct (iterate (tools server)); [discriminate | reflexivity].
    - unfold listed_tools in Hnull. rewrite Hserver in Hnull.
      destruct (iterate (tools server)) as [ts|e]; [|reflexivity].
      cbn [mbind result_bind]. apply (mapM_fails _ _ _ Hnull). reflexivity. }
  destruct (mapM (server_tools m) (servers m)); [discriminate | reflexivity].
Qed.

End CatalogMore.

(** ** The translator on schema trees *)







Section Acceptance.
Context `{Runtime}.



End Acceptance.

(** X13: the translation of a schema object rests on five of its
    keys only ([type], [minimum], [items], [properties], [required]):
    two schemas that agree on them translate alike. *)
Theorem translation_reads_five_keywords (fs fs' : list (string * json)) :
  lookup_field "type" fs = lookup_field "type" fs' ->
  lookup_field "minimum" fs = lookup_field "minimum" fs' ->
  lookup_field "items" fs = lookup_field "items" fs' ->
  lookup_field "properties" fs = lookup_field "properties" fs' ->
  lookup_field "required" fs = lookup_field "required" fs' ->
  convertPropertyToZod (JObj fs) = convertPropertyToZod (JObj fs') /\
  convertSchemaToZod (Some (JObj fs)) = convertSchemaToZod (Some (JObj fs')).
Proof.
  intros Htype Hminimum Hitems Hproperties Hrequired.
  assert (convertSchemaToZod (Some (JObj fs)) = convertSchemaToZod (Some (JObj fs')))
    as Hschema.
  { unfold convertSchemaToZod. cbn [js_truthy negb get_prop mbind result_bind].
    rewrite Htype, Hproperties, Hrequired. reflexivity. }
  split; [|exact Hschema].
  rewrite !convertPropertyToZod_eq. unfold convertPropertyToZod_body.
  cbn [get_prop mbind result_bind].
  rewrite Htype, Hminimum, Hitems, Hschema. reflexivity.
Qed.

(** X14: a tool whose input schema has a type other than "object"
    ("string", "number", ...) gets [z.any()], which accepts every
    input, while the same schema as a property gets the validator of
    its type. *)
Theorem top_level_scalar_schema_accepts_anything `{Runtime}
    (fs : list (string * json)) (t : string) :
  lookup_field "type" fs = Some (JStr t) ->
  t <> "" ->
  t <> "object" ->
  convertSchemaToZod (Some (JObj fs)) = Ok ZAny /\
  (forall input, accepts ZAny input = true) /\
  (t = "string" -> convertPropertyToZod (JObj fs) = Ok ZString) /\
  (t = "number" -> convertPropertyToZod (JObj fs) = Ok ZNumber) /\
  (t = "boolean" -> convertPropertyToZod (JObj fs) = Ok ZBoolean).
Proof.
  intros Htype Hempty Hobject. split; [|split; [reflexivity|]].
  - unfold convertSchemaToZod. cbn [js_truthy negb get_prop mbind result_bind].
    rewrite Htype. cbn [js_truthy is_string].
    destruct (String.eqb_spec t "") as [?|_]; [contradiction|].
    destruct (String.eqb_spec t "object") as [?|_]; [contradiction|]. reflexivity.
  - repeat split; intros ->; cbn [convertPropertyToZod]; rewrite Htype; reflexivity.
Qed.

(** ** The REPL *)

Lemma split_spaces_nonempty (s : string) : split_spaces s <> [].
Proof.
  induction s as [|c rest IH]; simpl; [discriminate|].
  destruct (Ascii.eqb c " "); [discriminate|].
  destruct (split_spaces rest); discriminate.
Qed.

Lemma concat_cons_nonempty (sep x : string) (xs : list string) :
  xs <> [] -> String.concat sep (x :: xs) = (x ++ sep ++ String.concat sep xs)%string.
Proof. destruct xs; [congruence|reflexivity]. Qed.

Lemma concat_split_spaces (s : string) : String.concat " " (split_spaces s) = s.
Proof.
  induction s as [|c rest IH]; [reflexivity|].
  simpl split_spaces. destruct (Ascii.eqb_spec c " ") as [->|_].
  - rewrite concat_cons_nonempty by apply split_spaces_nonempty.
    rewrite IH. reflexivity.
  - pose proof (split_spaces_nonempty rest) as Hne.
    destruct (split_spaces rest) as [|word words]; [congruence|].
    destruct words as [|w ws].
    + simpl in *. congruence.
    + rewrite concat_cons_nonempty in IH by discriminate.
      rewrite concat_cons_nonempty by discriminate.
      rewrite <- IH. reflexivity.
Qed.

Lemma includes_space_cons (c : ascii) (s : string) :
  string_includes (String c s) " " = Ascii.eqb c " " || string_includes s " ".
Proof.
  cbn [string_includes String.prefix]. f_equal.
  destruct (ascii_dec " " c) as [<-|Hne].
  - destruct s; reflexivity.
  - symmetry. apply Ascii.eqb_neq. congruence.
Qed.

Lemma split_spaces_no_space (s : string) :
  Forall (fun part => string_includes part " " = false) (split_spaces s).
Proof.
  induction s as [|c rest IH]; simpl split_spaces.
  - repeat constructor.
  - destruct (Ascii.eqb c " ") eqn:Hc.
    + constructor; [reflexivity|exact IH].
    + destruct (split_spaces rest) as [|word words].
      * constructor; [|constructor]. rewrite includes_space_cons, Hc. reflexivity.
      * inversion IH as [|? ? Hword Hwords]; subst. constructor; [|exact Hwords].
        rewrite includes_space_cons, Hc. exact Hword.
Qed.

Lemma split_spaces_word (w : string) :
  string_includes w " " = false -> split_spaces w = [w].
Proof.
  induction w as [|c w IH]; [reflexivity|].
  rewrite includes_space_cons. intros Hno. apply orb_false_elim in Hno as [Hc Hw].
  cbn [split_spaces]. rewrite Hc, (IH Hw). reflexivity.
Qed.

Lemma split_spaces_word_app (w rest : string) :
  string_includes w " " = false ->
  split_spaces (w ++ " " ++ rest)%string = w :: split_spaces rest.
Proof.
  induction w as [|c w IH]; [reflexivity|].
  rewrite includes_space_cons. intros Hno. apply orb_false_elim in Hno as [Hc Hw].
  change (String c w ++ " " ++ rest)%string with (String c (w ++ " " ++ rest)%string).
  cbn [split_spaces]. rewrite Hc, (IH Hw). reflexivity.
Qed.

Lemma split_concat_spaces (parts : list string) :
  parts <> [] ->
  Forall (fun part => string_includes part " " = false) parts ->
  split_spaces (String.concat " " parts) = parts.
Proof.
  induction parts as [|w parts IH]; [congruence|]. intros _ Hall.
  inversion Hall as [|? ? Hw Hparts]; subst.
  destruct parts as [|w' parts'].
  - apply split_spaces_word. exact Hw.
  - rewrite concat_cons_nonempty by discriminate.
    rewrite split_spaces_word_app by exact Hw.
    f_equal. apply IH; [discriminate|exact Hparts].
Qed.

(** X15: the words [startServer] hands to [spawn] (the program and its
    arguments) hold no space and, joined with single spaces, give back
    the command; conversely the words of a command built by joining
    space-free words are these words, so what the [/mcp] handler joins
    is what [spawn] receives. *)
Theorem command_words_recompose_the_command (cmd : string) :
  String.concat " " (program cmd :: arguments cmd) = cmd /\
  Forall (fun word => string_includes word " " = false) (program cmd :: arguments cmd) /\
  (forall word words,
     Forall (fun w => string_includes w " " = false) (word :: words) ->
     program (String.concat " " (word :: words)) = word /\
     arguments (String.concat " " (word :: words)) = words).
Proof.
  unfold program, arguments.
  pose proof (split_spaces_nonempty cmd) as Hne.
  pose proof (concat_split_spaces cmd) as Hcat.
  pose proof (split_spaces_no_space cmd) as Hno.
  destruct (split_spaces cmd) as [|word words]; [congruence|].
  cbn [hd tl]. repeat split; try assumption.
  - rewrite split_concat_spaces by (discriminate || assumption). reflexivity.
  - rewrite split_concat_spaces by (discriminate || assumption). reflexivity.
Qed.

Section ReplFacts.
Import Repl.

Lemma trim_end_idempotent (s : string) : trim_end (trim_end s) = trim_end s.
Proof.
  induction s as [|c rest IH]; [reflexivity|].
  cbn [trim_end]. destruct (trim_end rest) as [|d kept] eqn:Hrest.
  - destruct (is_space c) eqn:Hc; [reflexivity|].
    cbn [trim_end]. rewrite Hc. reflexivity.
  - cbn [trim_end]. cbn [trim_end] in IH. 
    destruct (trim_end kept) as [|e kept'] eqn:Hkept.
    + destruct (is_space d) eqn:Hd; [discriminate|].
      injection IH as ->. reflexivity.
    + rewrite IH. reflexivity.
Qed.

Lemma trim_start_head (s : string) :
  match trim_start s with
  | String c _ => is_space c = false
  | EmptyString => True
  end.
Proof.
  induction s as [|c rest IH]; [exact I|].
  cbn [trim_start]. destruct (is_space c) eqn:Hc; [exact IH|exact Hc].
Qed.

Lemma trim_end_head (c : ascii) (rest : string) :
  is_space c = false -> exists kept, trim_end (String c rest) = String c kept.
Proof.
  intros Hc. cbn [trim_end]. destruct (trim_end rest) as [|d kept].
  - rewrite Hc. eexists. reflexivity.
  - eexists. reflexivity.
Qed.

Lemma trim_idempotent (s : string) : trim (trim s) = trim s.
Proof.
  unfold trim. pose proof (trim_start_head s) as Hhead.
  destruct (trim_start s) as [|c rest]; [reflexivity|].
  destruct (trim_end_head c rest Hhead) as [kept Hkept].
  rewrite Hkept. cbn [trim_start]. rewrite Hhead, <- Hkept.
  apply trim_end_idempotent.
Qed.

Lemma find_allCommands {H} (name : string) (commands : list (Command H)) :
  find (matches name) (allCommands commands) =
  match find (matches name) commands with
  | Some cmd =>
      Some {| label := label cmd; spelled := spelled cmd; handler := Some (handler cmd) |}
  | None =>
      if String.eqb "/help" name
      then Some {| label := "Show this help message"; spelled := One "/help";
                   handler := None |}
      else None
  end.
Proof.
  unfold allCommands. induction commands as [|cmd commands IH].
  - cbn. destruct (String.eqb "/help" name); reflexivity.
  - cbn [map app find]. unfold matches at 1 3. cbn [spelled].
    fold (matches name cmd). destruct (matches name cmd); [reflexivity|exact IH].
Qed.

Lemma find_first {A} (f : A -> bool) (before after : list A) (x : A) :
  existsb f before = false -> f x = true -> find f (before ++ x :: after) = Some x.
Proof.
  induction before as [|y before IH]; cbn; intros Hbefore Hx.
  - rewrite Hx. reflexivity.
  - apply orb_false_elim in Hbefore as [-> Hbefore]. apply IH; assumption.
Qed.

Lemma find_none_existsb {A} (f : A -> bool) (l : list A) :
  existsb f l = false -> find f l = None.
Proof.
  induction l as [|y l IH]; cbn; [reflexivity|]. intros Hl.
  apply orb_false_elim in Hl as [-> Hl]. apply IH. exact Hl.
Qed.

Lemma handleCommand_slash {H} (input : string) (commands : list (Command H)) :
  starts_with_slash (trim input) = true ->
  handleCommand input commands =
  (true,
   match find (matches (program (trim input))) commands with
   | Some cmd => Runs (handler cmd) (arguments (trim input))
   | None =>
       if String.eqb "/help" (program (trim input))
       then ShowsHelp (help_listing commands)
       else SaysUnknown
   end).
Proof.
  intros Hslash. unfold handleCommand. 
  destruct (String.eqb_spec (trim input) "") as [Hempty|_].
  { rewrite Hempty in Hslash. discriminate. }
  rewrite Hslash. cbn [negb]. fold (program (trim input)). fold (arguments (trim input)).
  rewrite find_allCommands.
  destruct (find (matches (program (trim input))) commands) as [cmd|]; [reflexivity|].
  destruct (String.eqb "/help" (program (trim input))); reflexivity.
Qed.

(** X16: [handleCommand] looks at the trimmed input only.  It returns
    false exactly when the trimmed input is not empty and does not
    start with "/", and then does nothing; whenever it runs a handler,
    the input starts with "/", the handler belongs to a command one of
    whose spellings is the first word, and it gets the other words. *)
Theorem only_slash_input_is_a_command {H} (input : string) (commands : list (Command H)) :
  let trimmed := trim input in
  handleCommand input commands = handleCommand trimmed commands /\
  fst (handleCommand input commands) =
    (String.eqb trimmed "" || starts_with_slash trimmed) /\
  (starts_with_slash trimmed = false -> snd (handleCommand input commands) = Silent) /\
  (forall h args,
     snd (handleCommand input commands) = Runs h args ->
     starts_with_slash trimmed = true /\
     args = arguments trimmed /\
     exists cmd, In cmd commands /\ matches (program trimmed) cmd = true /\
                 handler cmd = h).
Proof.
  intros trimmed. split; [|split; [|split]].
  - subst trimmed. unfold handleCommand. rewrite trim_idempotent. reflexivity.
  - unfold handleCommand. fold trimmed.
    destruct (String.eqb trimmed ""); [reflexivity|].
    destruct (starts_with_slash trimmed); cbn [negb orb]; [|reflexivity].
    destruct (find _ _); reflexivity.
  - intros Hslash. unfold handleCommand. fold trimmed. rewrite Hslash.
    destruct (String.eqb trimmed ""); reflexivity.
  - intros h args Hruns.
    destruct (starts_with_slash trimmed) eqn:Hslash.
    + rewrite (handleCommand_slash input commands Hslash) in Hruns. fold trimmed in Hruns.
      cbn [snd] in Hruns.
      destruct (find (matches (program trimmed)) commands) as [cmd|] eqn:Hfind.
      * injection Hruns as <- <-. split; [reflexivity|]. split; [reflexivity|].
        apply find_some in Hfind as [Hin Hmatch]. exists cmd. auto.
      * destruct (String.eqb "/help" (program trimmed)); discriminate.
    + unfold handleCommand in Hruns. fold trimmed in Hruns. rewrite Hslash in Hruns.
      destruct (String.eqb trimmed ""); discriminate.
Qed.

(** X17: on input that starts with "/", the first command of the table
    that spells the first word runs, so a command of the table spelt
    "/help" replaces the built-in help; when none does, "/help" prints
    the table (one line per command, the help itself not among them)
    and any other word is reported as unknown.  The input counts as
    handled in each case. *)
Theorem first_matching_command_wins {H} (input : string) (commands : list (Command H)) :
  starts_with_slash (trim input) = true ->
  let name := program (trim input) in
  let args := arguments (trim input) in
  (forall before cmd after,
     commands = before ++ cmd :: after ->
     existsb (matches name) before = false ->
     matches name cmd = true ->
     handleCommand input commands = (true, Runs (handler cmd) args)) /\
  (existsb (matches name) commands = false ->
   handleCommand input commands =
   (true, if String.eqb name "/help" then ShowsHelp (help_listing commands)
          else SaysUnknown)) /\
  length (help_listing commands) = length commands.
Proof.
  intros Hslash name args. rewrite (handleCommand_slash input commands Hslash).
  fold name args. split; [|split].
  - intros before cmd after -> Hbefore Hcmd.
    rewrite (find_first _ before after cmd Hbefore Hcmd). reflexivity.
  - intros Hnone. rewrite (find_none_existsb _ _ Hnone).
    rewrite (String.eqb_sym "/help"). reflexivity.
  - unfold help_listing. apply length_map.
Qed.

Lemma starts_with_slash_concat (name : string) (args : list string) :
  starts_with_slash (String.concat " " (("/" ++ name)%string :: args)) = true.
Proof. destruct args; reflexivity. Qed.

(** X18: typing "/name arg ..." and [runCommand(name, [arg, ...])] run
    the same handler on the same arguments whenever a command of the
    table matches; when none does, [runCommand] does nothing, where the
    typed line prints the help (for "help") or reports an unknown
    command. *)
Theorem typed_and_flag_commands_agree {H} (name : string) (args : list string)
    (commands : list (Command H)) :
  let line := String.concat " " (("/" ++ name)%string :: args) in
  Forall (fun word => string_includes word " " = false) (name :: args) ->
  trim line = line ->
  handleCommand line commands =
  (true,
   match runCommand name args commands with
   | Silent =>
       if String.eqb name "help" then ShowsHelp (help_listing commands) else SaysUnknown
   | ran => ran
   end).
Proof.
  intros line Hwords Htrim.
  assert (starts_with_slash (trim line) = true) as Hslash.
  { rewrite Htrim. apply starts_with_slash_concat. }
  rewrite (handleCommand_slash line commands Hslash). rewrite Htrim.
  assert (split_spaces line = ("/" ++ name)%string :: args) as Hsplit.
  { apply split_concat_spaces; [discriminate|].
    inversion Hwords as [|? ? Hname Hargs]; subst. constructor; [|exact Hargs].
    change ("/" ++ name)%string with (String "/" name).
    rewrite includes_space_cons. exact Hname. }
  unfold program, arguments. rewrite Hsplit. cbn [hd tl]. unfold runCommand.
  destruct (find (matches ("/" ++ name)%string) commands); [reflexivity|].
  f_equal. change ("/" ++ name)%string with (String "/" name).
  destruct (String.eqb_spec name "help") as [->|Hne]; [reflexivity|].
  destruct (String.eqb_spec "/help" (String "/" name)) as [Heq|_]; [|reflexivity].
  injection Heq as Heq. congruence.
Qed.

Lemma existsb_spelled_matches {H} (name : string) (commands : list (Command H)) :
  existsb (spelled_exactly name) commands = true ->
  exists cmd, find (matches name) commands = Some cmd.
Proof.
  induction commands as [|cmd commands IH]; cbn [existsb find]; [discriminate|].
  intros Hsome. destruct (matches name cmd) eqn:Hmatch; [eexists; reflexivity|].
  apply IH. apply orb_true_iff in Hsome as [Hcmd|Hrest]; [|exact Hrest].
  unfold spelled_exactly in Hcmd. unfold matches in Hmatch.
  destruct (spelled cmd); congruence.
Qed.

(** X19: a flag of the command line runs a command only if its key is
    none of the reserved ones and some command is spelt exactly "/key"
    as a single string; then [runCommand] does run a handler, on the
    flag's values as strings.  Otherwise nothing runs: in the table of
    [main.ts] the flags [--exit] and [--quit] run nothing, although
    [runCommand] would find the command. *)
Theorem flags_run_singly_spelled_commands `{Runtime} {T} (key : string) (value : json)
    (commands : list (Command T)) :
  let args := map js_toString (flag_args value) in
  (existsb (String.eqb key) reserved = false ->
   existsb (spelled_exactly ("/" ++ key)%string) commands = true ->
   exists cmd, In cmd commands /\ matches ("/" ++ key)%string cmd = true /\
               run_flag key value commands = Runs (handler cmd) args /\
               run_flag key value commands = runCommand key args commands) /\
  (existsb (String.eqb key) reserved = true -> run_flag key value commands = Silent) /\
  (existsb (spelled_exactly ("/" ++ key)%string) commands = false ->
   run_flag key value commands = Silent) /\
  run_flag "exit" value Repl.commands = Silent /\
  run_flag "quit" value Repl.commands = Silent /\
  runCommand "quit" [] Repl.commands = Runs ExitRepl [].
Proof.
  intros args. split; [|split; [|split; [|repeat split]]]; unfold run_flag; fold args.
  - intros -> Hone. rewrite Hone. cbn [negb andb].
    destruct (existsb_spelled_matches _ _ Hone) as [cmd Hfind].
    exists cmd. unfold runCommand. rewrite Hfind.
    apply find_some in Hfind as [Hin Hmatch]. auto.
  - intros ->. reflexivity.
  - intros ->. rewrite andb_false_r. reflexivity.
Qed.

Lemma trim_end_app (a b : string) :
  b <> "" -> trim_end b = b -> trim_end (a ++ b)%string = (a ++ b)%string.
Proof.
  intros Hb Hend. induction a as [|c a IH]; [exact Hend|].
  change (String c a ++ b)%string with (String c (a ++ b)%string).
  cbn [trim_end]. rewrite IH.
  destruct (a ++ b)%string eqn:Hab; [|reflexivity].
  destruct a; simpl in Hab; [contradiction|discriminate].
Qed.

(** X20: the line "/mcp " followed by a command runs the [/mcp]
    handler on the words of the command.  The handler asks to start
    exactly that command unless its first word is "stop" or
    "stop-all"; "stop-all" asks to stop everything, whatever follows;
    "stop " followed by a target asks to stop exactly the target, and a
    lone "stop" is started as a command. *)
Theorem typed_mcp_command_reaches_the_manager {H} (before after : list (Command H))
    (entry : Command H) (cmd : string) :
  cmd <> "" ->
  trim_end cmd = cmd ->
  existsb (matches "/mcp") before = false ->
  matches "/mcp" entry = true ->
  handleCommand ("/mcp " ++ cmd)%string (before ++ entry :: after) =
    (true, Runs (handler entry) (split_spaces cmd)) /\
  (program cmd <> "stop" -> program cmd <> "stop-all" ->
   mcp_handler (split_spaces cmd) = Start cmd) /\
  (program cmd = "stop-all" -> mcp_handler (split_spaces cmd) = StopAll) /\
  (forall target, mcp_handler (split_spaces ("stop " ++ target)%string) = Stop target) /\
  mcp_handler (split_spaces "stop") = Start "stop".
Proof.
  intros Hcmd Hend Hbefore Hentry.
  assert (trim ("/mcp " ++ cmd)%string = ("/mcp " ++ cmd)%string) as Htrim.
  { unfold trim. change (trim_start ("/mcp " ++ cmd)%string) with ("/mcp " ++ cmd)%string.
    apply trim_end_app; assumption. }
  assert (forall word rest, string_includes word " " = false ->
            split_spaces (word ++ " " ++ rest)%string = word :: split_spaces rest)
    as Hsplit.
  { intros word rest Hword. apply split_spaces_word_app. exact Hword. }
  split; [|split; [|split; [|split]]].
  - rewrite handleCommand_slash by (rewrite Htrim; reflexivity). rewrite Htrim.
    unfold program, arguments.
    change ("/mcp " ++ cmd)%string with ("/mcp" ++ " " ++ cmd)%string.
    rewrite Hsplit by reflexivity. cbn [hd tl].
    rewrite (find_first _ before after entry Hbefore Hentry). reflexivity.
  - unfold program. pose proof (concat_split_spaces cmd) as Hcat.
    destruct (split_spaces cmd) as [|first rest]; cbn [hd]; intros Hstop Hall.
    + cbn in Hcat. congruence.
    + unfold mcp_handler.
      destruct (String.eqb_spec first "stop") as [?|_]; [contradiction|].
      destruct (String.eqb_spec first "stop-all") as [?|_]; [contradiction|].
      cbn [andb]. rewrite Hcat. reflexivity.
  - unfold program. destruct (split_spaces cmd) as [|first rest]; cbn [hd]; intros Hall.
    + discriminate.
    + subst first. reflexivity.
  - intros target. change ("stop " ++ target)%string with ("stop" ++ " " ++ target)%string.
    rewrite Hsplit by reflexivity. pose proof (split_spaces_nonempty target) as Hne.
    pose proof (concat_split_spaces target) as Hcat.
    destruct (split_spaces target) as [|word words]; [congruence|].
    unfold mcp_handler. cbn [String.eqb Ascii.eqb Bool.eqb andb length Nat.ltb Nat.leb].
    rewrite Hcat. reflexivity.
  - reflexivity.
Qed.

Lemma array_includes_app (l l' : list json) (pattern : string) :
  array_includes (l ++ l') pattern = array_includes l pattern || array_includes l' pattern.
Proof. unfold array_includes. apply existsb_app. Qed.

Lemma remove_first_absent (pattern : string) (l : list json) :
  array_includes l pattern = false -> remove_first pattern l = l.
Proof.
  induction l as [|v l IH]; [reflexivity|]. cbn [array_includes existsb].
  fold (array_includes l pattern). intros Hv. apply orb_false_elim in Hv as [Hv Hl].
  destruct v; cbn [remove_first]; try (rewrite (IH Hl); reflexivity).
  rewrite Hv, (IH Hl). reflexivity.
Qed.

Lemma remove_first_found (pattern : string) (before after : list json) :
  array_includes before pattern = false ->
  remove_first pattern (before ++ JStr pattern :: after) = before ++ after.
Proof.
  induction before as [|v before IH].
  - intros _. cbn. rewrite String.eqb_refl. reflexivity.
  - cbn [array_includes existsb]. fold (array_includes before pattern).
    intros Hv. apply orb_false_elim in Hv as [Hv Hbefore].
    destruct v; cbn [app remove_first]; try (rewrite (IH Hbefore); reflexivity).
    rewrite Hv, (IH Hbefore). reflexivity.
Qed.

(** X21: [/ignore] with arguments leaves the pattern in the list and
    adds it only when it is not there, so repeating it changes nothing;
    [/unignore] removes the first occurrence only (a pattern listed
    twice stays listed), leaves a list without the pattern as it is,
    and undoes an [/ignore] that added the pattern. *)
Theorem ignore_then_unignore (args : list string) (patterns : option (list json)) :
  args <> [] ->
  let pattern := String.concat " " args in
  let current := default [] patterns in
  (exists listed,
     ignore_handler args patterns = Some listed /\
     array_includes listed pattern = true /\
     (array_includes current pattern = true -> listed = current)) /\
  ignore_handler args (ignore_handler args patterns) = ignore_handler args patterns /\
  (array_includes current pattern = false ->
   unignore_handler args patterns = Some current /\
   unignore_handler args (ignore_handler args patterns) = Some current) /\
  (forall before after,
     current = before ++ JStr pattern :: after ->
     array_includes before pattern = false ->
     unignore_handler args patterns = Some (before ++ after) /\
     array_includes (before ++ after) pattern = array_includes after pattern).
Proof.
  intros Hargs pattern current.
  assert (array_includes [JStr pattern] pattern = true) as Hself.
  { cbn. rewrite String.eqb_refl. reflexivity. }
  destruct args as [|arg args]; [congruence|]. clear Hargs.
  unfold ignore_handler, unignore_handler. fold pattern current.
  destruct (array_includes current pattern) eqn:Hin; cbn [negb].
  - split; [|split; [|split]].
    + exists current. auto.
    + cbn [from_option id]. fold pattern. rewrite Hin. reflexivity.
    + discriminate.
    + intros before after Hcur Hbefore. rewrite Hcur.
      rewrite (remove_first_found _ _ _ Hbefore), array_includes_app, Hbefore. auto.
  - split; [|split; [|split]].
    + exists (current ++ [JStr pattern]). split; [reflexivity|]. split; [|discriminate].
      rewrite array_includes_app, Hself. apply orb_true_r.
    + cbn [from_option id]. fold pattern. rewrite array_includes_app, Hself, orb_true_r.
      reflexivity.
    + intros _. cbn [from_option id]. rewrite (remove_first_absent _ _ Hin).
      rewrite (remove_first_found _ current [] Hin), app_nil_r. auto.
    + intros before after Hcur Hbefore. rewrite Hcur.
      rewrite (remove_first_found _ _ _ Hbefore), array_includes_app, Hbefore. auto.
Qed.

End ReplFacts.

(** ** The configuration *)

Section ConfigurationFacts.
Import Config.
Context `{Runtime} `{Platform}.

Lemma value_or_truthy (a : option json) (b : result (option json)) :
  js_truthy a = true -> value_or a b = Ok a.
Proof. unfold value_or. intros ->. reflexivity. Qed.

Lemma merged_list_suffix (found : option json) (cli l : list json) :
  merged_list found cli = Ok l -> exists fromFile, l = fromFile ++ cli.
Proof.
  unfold merged_list. destruct (iterate _) as [fromFile|e]; cbn; [|discriminate].
  intros [= <-]. exists fromFile. reflexivity.
Qed.

(** X22: the path [findAiCodeConfigPath] returns names a file that
    exists; it is the project's file whenever that exists, and
    otherwise the file under the home directory, which is
    [os.homedir()] unless that is missing or empty, then [HOME]. *)
Theorem found_config_exists_project_first (startDir path : string) :
  findAiCodeConfigPath startDir = Some path ->
  existsSync path = true /\
  (existsSync (config_path startDir) = true -> path = config_path startDir) /\
  (existsSync (config_path startDir) = false ->
   exists homeDir,
     homeDir <> "" /\ path = config_path homeDir /\
     string_or os_homedir env_HOME = Some homeDir).
Proof.
  unfold findAiCodeConfigPath.
  destruct (existsSync (config_path startDir)) eqn:Hproject.
  - intros [= <-]. split; [exact Hproject|]. split; [reflexivity|discriminate].
  - destruct (string_or os_homedir env_HOME) as [homeDir|] eqn:Hhome; cbn [string_or].
    + destruct (String.eqb_spec homeDir "") as [->|Hne]; cbn [negb String.eqb].
      * discriminate.
      * rewrite (proj2 (String.eqb_neq homeDir "") Hne). cbn [negb].
        destruct (existsSync (config_path homeDir)) eqn:Hexists; [|discriminate].
        intros [= <-]. split; [exact Hexists|]. split; [discriminate|].
        intros _. exists homeDir. auto.
    + cbn. discriminate.
Qed.

(** X23: whenever [parseConfiguration] returns, the log level is
    truthy (it defaults to "warn"), each scalar option given a truthy
    value on the command line has that value whatever the file says,
    the ignore patterns and the MCP commands end with those of the
    command line (the file's come first), and [configSource] is the
    path found. *)
Theorem command_line_wins_over_the_file (argv : list (string * json))
    (parsed : ParsedConfig) :
  parseConfiguration argv = Ok parsed ->
  js_truthy (logLevel parsed) = true /\
  configSource parsed = findAiCodeConfigPath cwd /\
  (js_truthy (lookup_field "log-level" argv) = true ->
   logLevel parsed = lookup_field "log-level" argv) /\
  (js_truthy (lookup_field "log-file" argv) = true ->
   logFile parsed = lookup_field "log-file" argv) /\
  (js_truthy (lookup_field "model" argv) = true ->
   model parsed = lookup_field "model" argv) /\
  (js_truthy (lookup_field "provider" argv) = true ->
   provider parsed = lookup_field "provider" argv) /\
  (exists fromFile,
     ignorePatterns parsed = fromFile ++ cli_list (lookup_field "ignore" argv)) /\
  (exists fromFile,
     mcpServers parsed = fromFile ++ cli_list (lookup_field "mcp" argv)).
Proof.
  unfold parseConfiguration.
  destruct (value_or (lookup_field "log-level" argv) _) as [level|] eqn:Hlevel;
    cbn [mbind result_bind]; [|discriminate].
  destruct (value_or (lookup_field "log-file" argv) _) as [file|] eqn:Hfile;
    cbn [mbind result_bind]; [|discriminate].
  destruct (value_or (lookup_field "model" argv) _) as [mdl|] eqn:Hmodel;
    cbn [mbind result_bind]; [|discriminate].
  destruct (value_or (lookup_field "provider" argv) _) as [prov|] eqn:Hprovider;
    cbn [mbind result_bind]; [|discriminate].
  destruct (get_prop (Some config_in_force) "ignore") as [configIgnore|];
    cbn [mbind result_bind]; [|discriminate].
  destruct (merged_list configIgnore _) as [ignored|] eqn:Hignore;
    cbn [mbind result_bind]; [|discriminate].
  destruct (get_prop (Some config_in_force) "mcp") as [configMcp|];
    cbn [mbind result_bind]; [|discriminate].
  destruct (merged_list configMcp _) as [started|] eqn:Hmcp;
    cbn [mbind result_bind]; [|discriminate].
  intros [= <-]. cbn [logLevel logFile model provider ignorePatterns mcpServers configSource].
  repeat split.
  - unfold value_or in Hlevel.
    destruct (js_truthy (lookup_field "log-level" argv)) eqn:Hcli.
    + injection Hlevel as <-. exact Hcli.
    + destruct (get_prop (Some config_in_force) "logLevel") as [found|];
        cbn [mbind result_bind] in Hlevel; [|discriminate].
      destruct (js_truthy found) eqn:Hfound; injection Hlevel as <-;
        [exact Hfound|reflexivity].
  - intros Hcli. rewrite (value_or_truthy _ _ Hcli) in Hlevel. congruence.
  - intros Hcli. rewrite (value_or_truthy _ _ Hcli) in Hfile. congruence.
  - intros Hcli. rewrite (value_or_truthy _ _ Hcli) in Hmodel. congruence.
  - intros Hcli. rewrite (value_or_truthy _ _ Hcli) in Hprovider. congruence.
  - exact (merged_list_suffix _ _ _ Hignore).
  - exact (merged_list_suffix _ _ _ Hmcp).
Qed.

(** X24: a configuration file that is found but cannot be read, or is
    not JSON, counts as an empty one: the options are those of the
    command line with the log level defaulting to "warn", and
    [configSource] still names the file. *)
Theorem unreadable_config_counts_as_empty (argv : list (string * json)) (path : string) :
  findAiCodeConfigPath cwd = Some path ->
  path <> "" ->
  match readFileSync path with
  | Some content => JSON_parse content = None
  | None => True
  end ->
  parseConfiguration argv =
  Ok {| logLevel := if js_truthy (lookup_field "log-level" argv)
                    then lookup_field "log-level" argv else Some (JStr "warn");
        logFile := if js_truthy (lookup_field "log-file" argv)
                   then lookup_field "log-file" argv else None;
        model := if js_truthy (lookup_field "model" argv)
                 then lookup_field "model" argv else None;
        provider := if js_truthy (lookup_field "provider" argv)
                    then lookup_field "provider" argv else None;
        ignorePatterns := cli_list (lookup_field "ignore" argv);
        mcpServers := cli_list (lookup_field "mcp" argv);
        configSource := Some path |}.
Proof.
  intros Hfound Hpath Hbad.
  assert (config_in_force = JObj []) as Hconfig.
  { unfold config_in_force, loadAiCodeConfig. rewrite Hfound. cbn [string_or].
    rewrite (proj2 (String.eqb_neq path "") Hpath).
    destruct (readFileSync path) as [content|]; [|reflexivity].
    rewrite Hbad. reflexivity. }
  unfold parseConfiguration. rewrite Hconfig, Hfound. unfold value_or, merged_list.
  cbn [get_prop lookup_field find mbind result_bind js_truthy iterate app].
  destruct (js_truthy (lookup_field "log-level" argv));
    destruct (js_truthy (lookup_field "log-file" argv));
    destruct (js_truthy (lookup_field "model" argv));
    destruct (js_truthy (lookup_field "provider" argv)); reflexivity.
Qed.

(** X25: when the configuration in force is [null] (a file that holds
    the JSON text [null]), [parseConfiguration] throws a [TypeError],
    whatever the command line gives. *)
Theorem null_config_fails_the_start (argv : list (string * json)) :
  config_in_force = JNull ->
  parseConfiguration argv = Throw TypeError.
Proof.
  intros Hconfig. unfold parseConfiguration. rewrite Hconfig. unfold value_or.
  cbn [get_prop mbind result_bind].
  destruct (js_truthy (lookup_field "log-level" argv));
    destruct (js_truthy (lookup_field "log-file" argv));
    destruct (js_truthy (lookup_field "model" argv));
    destruct (js_truthy (lookup_field "provider" argv)); reflexivity.
Qed.

End ConfigurationFacts.

(** ** The start of [main] *)

Section StartupFacts.
Import Startup.
Context `{Runtime}.

Lemma silent_step (cmd : string) (reg : list (string * nat)) (e : event) :
  no_answer_to_initialize e ->
  let server :=
    sendRequest (new_server cmd) "initialize" (Some initialize_params)
      (AwaitInitialize 0 0) in
  exists reg',
    step {| servers := reg; heap := [server];
            spawned := [(program cmd, arguments cmd)]; killed := []; calls := [None] |} e =
    {| servers := reg'; heap := [server];
       spawned := [(program cmd, arguments cmd)]; killed := []; calls := [None] |}.
Proof.
  intros Hquiet server.
  destruct e as [c|c| |addr tool params|addr line|addr lines|addr|addr];
    cbn [no_answer_to_initialize] in Hquiet; try contradiction.
  - cbn [step]. unfold on_line. cbn [heap].
    destruct addr as [|addr]; [|exists reg; reflexivity].
    cbn [lookup list_lookup].
    assert (onLine server line = (server, None)) as ->.
    { destruct (JSON_parse line) as [message|] eqn:Hparse.
      - rewrite (onLine_parsed _ _ _ Hparse).
        destruct (response_id message) as [key|]; [|reflexivity].
        assert (key <> 1%Z) as Hkey by congruence.
        subst server. cbn [sendRequest new_server pendingRequests nextId].
        rewrite lookup_insert_ne by congruence. rewrite lookup_empty. reflexivity.
      - unfold onLine. rewrite Hparse. reflexivity. }
    exists reg. reflexivity.
  - cbn [step]. unfold process_gone. cbn [heap].
    destruct addr as [|addr]; [|exists reg; reflexivity].
    cbn [lookup list_lookup]. eexists. reflexivity.
  - cbn [step]. unfold process_gone. cbn [heap].
    destruct addr as [|addr]; [|exists reg; reflexivity].
    cbn [lookup list_lookup]. eexists. reflexivity.
Qed.

(** X26: [main] awaits each configured server before the next.  While
    the [initialize] request of the first configured server is not
    answered (its process may exit or fail, and lines that answer
    nothing may arrive), the promise of [startServer] stays pending,
    no other configured server is spawned and the REPL is not
    created. *)
Theorem unanswered_initialize_blocks_the_start (cmd : string) (rest : list json)
    (events : list event) :
  spawn (program cmd) (arguments cmd) = Spawned ->
  Forall no_answer_to_initialize events ->
  let s := main_run events (main_begin (JStr cmd :: rest)) in
  repl_created s = false /\
  awaited s = Some 0 /\
  calls (manager s) = [None] /\
  queue s = rest /\
  spawned (manager s) = [(program cmd, arguments cmd)].
Proof.
  intros Hspawn Hquiet s.
  assert (exists reg,
            s = {| manager :=
                     {| servers := reg;
                        heap := [sendRequest (new_server cmd) "initialize"
                                   (Some initialize_params) (AwaitInitialize 0 0)];
                        spawned := [(program cmd, arguments cmd)];
                        killed := []; calls := [None] |};
                   queue := rest; awaited := Some 0 |}) as [reg ->].
  { subst s. unfold main_begin. cbn [main_loop start_one].
    rewrite (startServer_fresh initial cmd eq_refl Hspawn).
    cbn [initial calls heap servers spawned killed app length lookup list_lookup].
    generalize (registry_set cmd 0 []). intros reg. revert reg.
    induction Hquiet as [|e events He _ IH]; intros reg; [exists reg; reflexivity|].
    cbn [main_run fold_left]. unfold main_step at 2. cbn [manager awaited queue].
    destruct (silent_step cmd reg e He) as [reg' ->].
    cbn [calls lookup list_lookup]. apply IH. }
  repeat split.
Qed.


End StartupFacts.

(** * The further statements on the samples *)

Section FurtherExamples.
Import Provider Disk Repl Startup.
#[local] Existing Instance Sample.runtime.

Lemma late_exit_witness :
  let m := run (ready "alpha" 0) initial in
  let restarted := run [CallStopServer "alpha"; CallStartServer "alpha"] m in
  let after := step restarted (ProcessExit 0) in
  registry_get "alpha" (servers restarted) = Some (length (heap m)) /\
  length (heap m) <> 0 /\
  registry_get "alpha" (servers after) = None /\
  killed after = killed m ++ [0] /\
  step restarted (ProcessError 0) = after.
Proof.
  apply (late_exit_unregisters_the_successor (ready "alpha" 0) "alpha" 0); reflexivity.
Defined.

Lemma tools_list_waits_witness :
  written <$> heap (run [CallStartServer "srv"] initial) !! 0 =
    Some [{| req_id := 1; req_method := "initialize";
             req_params := Some initialize_params |}] /\
  written <$> heap (run [CallStartServer "srv"; Line 0 initialize_error] initial) !! 0 =
    Some [{| req_id := 1; req_method := "initialize";
             req_params := Some initialize_params |}] /\
  written <$> heap (run [CallStartServer "srv"; Line 0 initialize_result] initial) !! 0 =
    Some handshake_requests.
Proof.
  pose proof (tools_list_waits_for_initialize initial "srv" eq_refl eq_refl)
    as (Hfirst & Hrejected & Hresolved).
  split; [exact Hfirst|]. split.
  - apply (Hrejected initialize_error
             (JObj [("jsonrpc", JStr "2.0"); ("id", JNum 1);
                    ("error", JObj [("code", JNum (-32603)); ("message", JStr "boom")])])
             (PlainError (Some (JStr "boom")))); reflexivity.
  - apply (Hresolved initialize_result
             (JObj [("jsonrpc", JStr "2.0"); ("id", JNum 1);
                    ("result", JObj [("protocolVersion", JStr "2024-11-05");
                                     ("capabilities", JObj [])])])
             (Some (JObj [("protocolVersion", JStr "2024-11-05");
                          ("capabilities", JObj [])]))); reflexivity.
Defined.

Lemma handshake_stores_witness :
  let addr := length (heap initial) in
  let call := length (calls initial) in
  let done :=
    run [CallStartServer "srv"; Line addr initialize_result; Line addr tools_list_result]
      initial in
  calls done !! call = Some (Some (Fulfilled RVoid)) /\
  registry_get "srv" (servers done) = Some addr /\
  heap done !! addr = Some (session "srv" (JArr [search_tool])).
Proof.
  apply (handshake_stores_the_listed_tools initial "srv" initialize_result
           tools_list_result
           (JObj [("jsonrpc", JStr "2.0"); ("id", JNum 1);
                  ("result", JObj [("protocolVersion", JStr "2024-11-05");
                                   ("capabilities", JObj [])])])
           (JObj [("jsonrpc", JStr "2.0"); ("id", JNum 2);
                  ("result", JObj [("tools", JArr [search_tool])])])
           (Some (JObj [("protocolVersion", JStr "2024-11-05"); ("capabilities", JObj [])]))
           (Some (JObj [("tools", JArr [search_tool])]))
           (Some (JArr [search_tool])));
    reflexivity.
Defined.




Lemma bad_session_witness :
  is_ok (getAllTools
           (run (ready "alpha" 0 ++
                 [CallStartServer "beta"; Line 1 initialize_result; Line 1 tools_list_null])
              initial)) = false.
Proof.
  apply (one_bad_session_fails_the_catalog _ "beta" 1 (session "beta" (JArr [JNull]))).
  - vm_compute. right. left. reflexivity.
  - reflexivity.
  - right. vm_compute. left. reflexivity.
Defined.


Lemma five_keywords_witness :
  convertPropertyToZod
    (JObj [("type", JStr "integer"); ("minimum", JNum 1)]) =
  convertPropertyToZod
    (JObj [("description", JStr "how many"); ("maximum", JNum 9);
           ("type", JStr "integer"); ("minimum", JNum 1)]) /\
  convertSchemaToZod
    (Some (JObj [("type", JStr "integer"); ("minimum", JNum 1)])) =
  convertSchemaToZod
    (Some (JObj [("description", JStr "how many"); ("maximum", JNum 9);
                 ("type", JStr "integer"); ("minimum", JNum 1)])).
Proof.
  apply (translation_reads_five_keywords
           [("type", JStr "integer"); ("minimum", JNum 1)]
           [("description", JStr "how many"); ("maximum", JNum 9);
            ("type", JStr "integer"); ("minimum", JNum 1)]);
    reflexivity.
Defined.

Lemma scalar_schema_witness :
  convertSchemaToZod (Some (JObj [("type", JStr "string")])) = Ok ZAny /\
  accepts ZAny (Some (JNum 5)) = true /\
  convertPropertyToZod (JObj [("type", JStr "string")]) = Ok ZString.
Proof.
  pose proof (top_level_scalar_schema_accepts_anything [("type", JStr "string")] "string"
                eq_refl) as Hscalar.
  destruct Hscalar as (Htop & Hany & Hstring & _); [discriminate|discriminate|].
  split; [exact Htop|]. split; [apply Hany|]. apply Hstring. reflexivity.
Defined.

Lemma first_matching_witness :
  handleCommand " /quit now " commands = (true, Runs ExitRepl ["now"]) /\
  handleCommand "/help" commands = (true, ShowsHelp (help_listing commands)) /\
  handleCommand "/nope" commands = (true, SaysUnknown).
Proof.
  split; [|split].
  - pose proof (first_matching_command_wins " /quit now " commands eq_refl) as [Hruns _].
    apply (Hruns (firstn 11 commands)
             {| label := "Exit the REPL"; spelled := Several ["/exit"; "/quit"];
                handler := ExitRepl |} []); reflexivity.
  - pose proof (first_matching_command_wins "/help" commands eq_refl) as (_ & Hnone & _).
    apply Hnone. reflexivity.
  - pose proof (first_matching_command_wins "/nope" commands eq_refl) as (_ & Hnone & _).
    apply Hnone. reflexivity.
Defined.

Lemma typed_and_flag_witness :
  handleCommand "/mcp stop-all" commands =
    (true, runCommand "mcp" ["stop-all"] commands) /\
  runCommand "mcp" ["stop-all"] commands = Runs ManageMcp ["stop-all"].
Proof.
  split; [|reflexivity].
  apply (typed_and_flag_commands_agree "mcp" ["stop-all"] commands).
  - repeat constructor.
  - reflexivity.
Defined.

Lemma typed_mcp_witness :
  handleCommand "/mcp npx -y server /tmp" commands =
    (true, Runs ManageMcp ["npx"; "-y"; "server"; "/tmp"]) /\
  mcp_handler ["npx"; "-y"; "server"; "/tmp"] = Start "npx -y server /tmp" /\
  mcp_handler ["stop"; "npx"; "-y"; "server"; "/tmp"] = Stop "npx -y server /tmp".
Proof.
  pose proof (typed_mcp_command_reaches_the_manager (firstn 10 commands)
                (skipn 11 commands)
                {| label := "Manage MCP servers"; spelled := One "/mcp";
                   handler := ManageMcp |}
                "npx -y server /tmp") as Htyped.
  destruct Htyped as (Hline & Hstart & _ & Hstop & _);
    [discriminate|reflexivity|reflexivity|reflexivity|].
  split; [exact Hline|]. split.
  - apply Hstart; discriminate.
  - apply (Hstop "npx -y server /tmp").
Defined.

Lemma ignore_then_unignore_witness :
  unignore_handler ["*.log"] (Some [JStr "dist"]) = Some [JStr "dist"] /\
  unignore_handler ["*.log"] (ignore_handler ["*.log"] (Some [JStr "dist"])) =
    Some [JStr "dist"].
Proof.
  pose proof (ignore_then_unignore ["*.log"] (Some [JStr "dist"])) as Hignore.
  destruct Hignore as (_ & _ & Hundo & _); [discriminate|].
  apply Hundo. reflexivity.
Defined.

Lemma found_config_witness :
  @Config.existsSync at_home "/home/me/.aicode/config.json" = true /\
  exists homeDir,
    homeDir <> "" /\
    "/home/me/.aicode/config.json" = @Config.config_path at_home homeDir /\
    Config.string_or (@Config.os_homedir at_home) (@Config.env_HOME at_home) =
      Some homeDir.
Proof.
  pose proof (@found_config_exists_project_first at_home "/work"
                "/home/me/.aicode/config.json" eq_refl) as (Hexists & _ & Hhome).
  split; [exact Hexists|]. apply Hhome. reflexivity.
Defined.

Lemma command_line_wins_witness :
  let parsed :=
    {| Config.logLevel := Some (JStr "debug"); Config.logFile := None;
       Config.model := Some (JStr "m2"); Config.provider := None;
       Config.ignorePatterns := [JStr "dist"; JStr "tmp"];
       Config.mcpServers := [JStr "npx a"];
       Config.configSource := Some "/home/me/.aicode/config.json" |} in
  @Config.parseConfiguration Sample.runtime at_home
    [("_", JArr []); ("model", JStr "m2"); ("ignore", JStr "tmp")] = Ok parsed /\
  js_truthy (Config.logLevel parsed) = true /\
  Config.model parsed = Some (JStr "m2") /\
  (exists fromFile, Config.ignorePatterns parsed = fromFile ++ [JStr "tmp"]) /\
  (exists fromFile, Config.mcpServers parsed = fromFile ++ []).
Proof.
  intros parsed.
  pose proof (@command_line_wins_over_the_file Sample.runtime at_home
                [("_", JArr []); ("model", JStr "m2"); ("ignore", JStr "tmp")]
                parsed eq_refl)
    as (Hlevel & _ & _ & _ & Hmodel & _ & Hignore & Hmcp).
  split; [reflexivity|]. split; [exact Hlevel|]. split; [apply Hmodel; reflexivity|].
  split; [exact Hignore|exact Hmcp].
Defined.

Lemma unreadable_config_witness :
  @Config.parseConfiguration Sample.runtime broken
    [("_", JArr []); ("mcp", JArr [JStr "npx a"; JStr "npx b"])] =
  Ok {| Config.logLevel := Some (JStr "warn"); Config.logFile := None;
        Config.model := None; Config.provider := None;
        Config.ignorePatterns := [];
        Config.mcpServers := [JStr "npx a"; JStr "npx b"];
        Config.configSource := Some "/work/.aicode/config.json" |}.
Proof.
  apply (@unreadable_config_counts_as_empty Sample.runtime broken
           [("_", JArr []); ("mcp", JArr [JStr "npx a"; JStr "npx b"])]
           "/work/.aicode/config.json").
  - reflexivity.
  - discriminate.
  - reflexivity.
Defined.

Lemma null_config_witness :
  @Config.parseConfiguration Sample.runtime null_file
    [("_", JArr []); ("model", JStr "m2")] = Throw TypeError.
Proof.
  apply (@null_config_fails_the_start Sample.runtime null_file). reflexivity.
Defined.

Lemma unanswered_initialize_witness :
  let s := main_run [ProcessExit 0; Line 0 "not json"]
             (main_begin [JStr "alpha"; JStr "beta"]) in
  repl_created s = false /\
  awaited s = Some 0 /\
  calls (manager s) = [None] /\
  queue s = [JStr "beta"] /\
  spawned (manager s) = [(program "alpha", arguments "alpha")].
Proof.
  apply (unanswered_initialize_blocks_the_start "alpha" [JStr "beta"]
           [ProcessExit 0; Line 0 "not json"]).
  - reflexivity.
  - constructor; [exact I|]. constructor; [vm_compute; exact I|]. constructor.
Defined.


(** [--tree] runs [/tree]; [--mcp] is left to the configuration. *)
Example flags_of_the_table :
  run_flag "tree" (JBool true) commands = Runs PrintTree [] /\
  run_flag "mcp" (JStr "npx a") commands = Silent.
Proof. repeat split. Qed.

End FurtherExamples.
